(** * lss: index primitives, vector transformations, generic readers and the
      LAPACK solve adapter

    A shallow embedding of

    - [lss/cf3/lss/reference/lss_utilities.hpp]: [idx_t], the vector
      transformation type list and the generic [read_dense]/[read_sparse];
    - [lss/cf3/lss/LAPACK.hpp]: [LAPACK::solve] and [LAPACK::operator=].

    Machine integers are integers of [Z] with the wrap-around of every
    conversion written out; [std::vector] is [list]; a function that can
    throw returns an [outcome]. *)

From Stdlib Require Import ZArith QArith Qabs String Ascii List Lia.
From stdpp Require Import base decidable numbers list sorting.

Local Open Scope Z_scope.

(** ** Machine integers *)

Module Int.

(** [std::numeric_limits<size_t>::max()] on an LP64 target. *)
Definition size_max : Z := 2 ^ 64 - 1.

Definition int_min : Z := - 2 ^ 31.
Definition int_max : Z := 2 ^ 31 - 1.

Definition is_size_t (v : Z) : Prop := 0 <= v <= size_max.
Definition is_int (v : Z) : Prop := int_min <= v <= int_max.

(** [static_cast<size_t>(e)] of an [int] (also the implicit conversion of
    an [int] argument to a [size_t] parameter): the value modulo 2^64. *)
Definition to_size_t (e : Z) : Z := e mod 2 ^ 64.

(** [static_cast<int>(v)]: the low 32 bits, read as two's complement. *)
Definition to_int (v : Z) : Z := (v + 2 ^ 31) mod 2 ^ 32 - 2 ^ 31.

End Int.

(** ** [idx_t]: index pair *)

(** [struct idx_t { size_t i, j; ... }]. *)
Record idx_t : Type := Idx { i : Z; j : Z }.

Module idx_t.

(** [idx_t()]: both coordinates default to
    [std::numeric_limits<size_t>::max()]. *)
Definition default : idx_t := Idx Int.size_max Int.size_max.

(** The coordinates are [size_t] values. *)
Definition wf (p : idx_t) : Prop := Int.is_size_t (i p) /\ Int.is_size_t (j p).

(** [operator<]:
    [i<_other.i? true : i>_other.i? false : (j<_other.j)]. *)
Definition lt (p other : idx_t) : bool :=
  if i p <? i other then true
  else if i p >? i other then false
  else j p <? j other.

(** [operator>]: [idx_t(_other) < *this]. *)
Definition gt (p other : idx_t) : bool := lt other p.

(** [operator==]. *)
Definition eq (p other : idx_t) : bool :=
  (i p =? i other) && (j p =? j other).

(** [operator!=]. *)
Definition ne (p other : idx_t) : bool :=
  negb (i p =? i other) || negb (j p =? j other).

(** [invalidate()]: [*this = idx_t()]. *)
Definition invalidate (_ : idx_t) : idx_t := default.

(** [is_valid_size()]:
    [operator>(idx_t(0,0)) && operator<(idx_t())]. *)
Definition is_valid_size (p : idx_t) : bool :=
  gt p (Idx 0 0) && lt p default.

(** [is_square_size()]: [i==j]. *)
Definition is_square_size (p : idx_t) : bool := i p =? j p.

(** [is_diagonal()]. *)
Definition is_diagonal (p : idx_t) : bool := is_square_size p.

(** The lexicographic (row first, then column) order, as a proposition. *)
Definition lex (p q : idx_t) : Prop :=
  i p < i q \/ (i p = i q /\ j p < j q).

End idx_t.

(** ** Exceptions and outcomes *)

(** What a [std::runtime_error] of this code says. The text of each message
    is given next to its constructor; [err] is printed in decimal. *)
Inductive message : Type :=
| file_format_not_detected (fname : string)
    (* file format not detected ("<fname>"). *)
| size_must_be_square
    (* LAPACK: system matrix size must be square *)
| precision_not_implemented
    (* LAPACK: precision not implemented: <typeid(T).name()> *)
| invalid_argument (err : Z)
    (* LAPACK: invalid <err>'th argument to dgesv_()/sgesv_() *)
| singular (err : Z)
    (* LAPACK: triangular factor matrix U(<err>,<err>) is zero, so A is
       singular (not invertible) *)
| empty_message.

Inductive exception : Type :=
| std_length_error
| std_out_of_range
| std_runtime_error (what : message).

(** The result of a call that may throw, or leave the defined behaviour of
    C++ (a write past the end of a vector). *)
Inductive outcome (A : Type) : Type :=
| Returned (x : A)
| Threw (e : exception)
| Undefined.

Arguments Returned {A} x.
Arguments Threw {A} e.
Arguments Undefined {A}.

#[global] Instance outcome_ret : MRet outcome := fun A x => Returned x.

#[global] Instance outcome_bind : MBind outcome := fun A B k c =>
  match c with
  | Returned x => k x
  | Threw e => Threw e
  | Undefined => Undefined
  end.

(** ** The parts of the C++ standard library the code calls *)

Module Std.

(** [std::sort(first,last)] on [size_t] elements: the ascending
    rearrangement. *)
Definition sort (v : list Z) : list Z := merge_sort Z.le v.

(** [std::unique] followed by [erase]: of every run of equal neighbours
    the first element is kept. *)
Fixpoint unique_from (prev : Z) (v : list Z) : list Z :=
  match v with
  | [] => []
  | x :: v' => if prev =? x then unique_from prev v' else x :: unique_from x v'
  end.

Definition unique (v : list Z) : list Z :=
  match v with
  | [] => []
  | x :: v' => x :: unique_from x v'
  end.

(** [std::remove_if] followed by [erase]: the elements the predicate
    rejects, in their order. *)
Definition remove_if {A : Type} (pred : A -> bool) (v : list A) : list A :=
  List.filter (fun x => negb (pred x)) v.

(** [std::for_each(first,last,f)]: [f] is called on a reference to each
    element and what it returns is ignored. A functor is the pair of what
    it leaves in the referenced element and what it returns. *)
Definition for_each {A R : Type} (f : A -> A * R) (v : list A) : list A :=
  List.map (fun x => fst (f x)) v.

(** [std::transform(first,last,out,f)] where [out] is the beginning of
    [dst]: the first [length src] elements of [dst] are overwritten; a
    shorter [dst] is written past its end. *)
Definition transform {A B : Type} (f : A -> B) (src : list A) (dst : list B)
  : outcome (list B) :=
  if (length src <=? length dst)%nat
  then Returned (List.map f src ++ drop (length src) dst)
  else Undefined.

(** The constructor [std::vector<E>(n, x)] and [assign(n, x)] for a
    [size_t] count [n]: more than [max_size()] elements is a
    [std::length_error]. Memory is otherwise taken to be sufficient. *)
Definition vector_fill {E : Type} (max_size : Z) (n : Z) (x : E)
  : outcome (list E) :=
  if max_size <? n then Threw std_length_error
  else Returned (repeat x (Z.to_nat n)).

(** [std::vector<int>::max_size()] is at most
    [numeric_limits<size_t>::max() / sizeof(int)]. The counts below come
    from an [int]: they are under 2^31 or at least 2^64 - 2^31, on the
    same side of every bound an implementation may choose. *)
Definition vector_int_max_size : Z := Int.size_max / 4.

(** [std::vector<int> ipiv(n)] with an [int n]: the count is converted to
    [size_t], so a negative [n] asks for at least 2^64 - 2^31 elements. *)
Definition vector_int (n : Z) : outcome (list Z) :=
  vector_fill vector_int_max_size (Int.to_size_t n) 0.

(** [s.find_last_of(c)] for a one-character set: [None] is [npos]. *)
Fixpoint find_last_of (s : string) (c : ascii) : option nat :=
  match s with
  | EmptyString => None
  | String x s' =>
      match find_last_of s' c with
      | Some p => Some (S p)
      | None => if Ascii.eqb x c then Some O else None
      end
  end.

Fixpoint string_drop (n : nat) (s : string) : string :=
  match n, s with
  | O, _ => s
  | S n', EmptyString => EmptyString
  | S n', String _ s' => string_drop n' s'
  end.

(** [s.substr(pos)]: [std::out_of_range] when [pos > s.size()], which
    [npos] always is. *)
Definition substr (s : string) (pos : option nat) : outcome string :=
  match pos with
  | None => Threw std_out_of_range
  | Some p =>
      if (p <=? String.length s)%nat then Returned (string_drop p s)
      else Threw std_out_of_range
  end.

End Std.

(** ** Functors on indices *)

(** [base_conversion_t]: [int& operator()(int& v) { return (v+=diff); }]
    updates the element it is given. *)
Definition base_conversion_t (diff : Z) (v : Z) : Z * Z :=
  let v' := Int.to_int (v + diff) in (v', v').

(** ** Vector transformations by type *)

(** A transformation is a type with a static [apply(v, e)]; [e] arrives as
    an [int]. *)
Definition transformation : Type := list Z -> Z -> list Z.

(** [transform_list_t_end::apply(std::vector<size_t>&, size_t) {}]. *)
Definition transform_list_t_end : transformation := fun v _ => v.

(** [transform_list_t<Transf,TransfNested>::apply]:
    [TransfNested::apply(v,e); Transf::apply(v,e);]. *)
Definition transform_list_t (Transf TransfNested : transformation)
  : transformation :=
  fun v e => Transf (TransfNested v e) e.

(** [vector_sort_unique::apply]: [std::sort], then
    [v.erase(std::unique(...), v.end())]. *)
Definition vector_sort_unique : transformation :=
  fun v _ => Std.unique (Std.sort v).

(** [vector_element_push_front::apply(v, size_t e)]:
    [v.insert(v.begin(), e)]. *)
Definition vector_element_push_front : transformation :=
  fun v e => Int.to_size_t e :: v.

(** [vector_element_push_back::apply(v, int e)]: [v.push_back(e)]. *)
Definition vector_element_push_back : transformation :=
  fun v e => v ++ [Int.to_size_t e].

(** [vector_element_remove::equal_to]. *)
Definition equal_to (elem : Z) (_elem : Z) : bool := elem =? _elem.

(** [vector_element_remove::apply]: erase-remove of the elements equal to
    [static_cast<size_t>(e)]. *)
Definition vector_element_remove : transformation :=
  fun v e => Std.remove_if (equal_to (Int.to_size_t e)) v.

(** [vector_add_value::add_value]:
    [size_t operator()(size_t &v) const
       { return static_cast<size_t>(static_cast<int>(v)+diff); }]
    returns the shifted value and leaves [v] as it is. The [int] sum is
    written with its wrap-around. *)
Definition add_value (diff : Z) (v : Z) : Z * Z :=
  (v, Int.to_size_t (Int.to_int (Int.to_int v + diff))).

(** [vector_add_value::apply]:
    [std::for_each(v.begin(),v.end(),add_value(e))]. *)
Definition vector_add_value : transformation :=
  fun v e => Std.for_each (add_value e) v.

(** [vector_sorted_t]. *)
Definition vector_sorted_t : transformation :=
  transform_list_t vector_sort_unique
    (transform_list_t vector_element_push_back transform_list_t_end).

(** [vector_sorted_diagonal_first_t]. *)
Definition vector_sorted_diagonal_first_t : transformation :=
  transform_list_t vector_element_push_front
    (transform_list_t vector_sort_unique
       (transform_list_t vector_element_remove transform_list_t_end)).

(** Strictly ascending: every element is below all the later ones. *)
Definition strictly_ascending (v : list Z) : Prop := StronglySorted Z.lt v.

(** ** Generic I/O *)

(** What a backend [read_dense(fname, roworiented, size, a)] leaves: its
    return value and its two output parameters. *)
Record dense_read (D : Type) : Type := DenseRead {
  dense_ok : bool;
  dense_size : idx_t;
  dense_a : list (list D)
}.

Arguments DenseRead {D}.
Arguments dense_ok {D}.
Arguments dense_size {D}.
Arguments dense_a {D}.

(** What a backend
    [read_sparse(fname, roworiented, base, size, a, ia, ja)] leaves. *)
Record sparse_read (D : Type) : Type := SparseRead {
  sparse_ok : bool;
  sparse_size : idx_t;
  sparse_a : list D;
  sparse_ia : list Z;
  sparse_ja : list Z
}.

Arguments SparseRead {D}.
Arguments sparse_ok {D}.
Arguments sparse_size {D}.
Arguments sparse_a {D}.
Arguments sparse_ia {D}.
Arguments sparse_ja {D}.

(** The backends are declared in the header and defined elsewhere: a
    reader is a function of its arguments, the output parameters
    included as they are on entry. *)
Definition dense_reader (D : Type) : Type :=
  string -> bool -> idx_t -> list (list D) -> dense_read D.

Definition sparse_reader (D : Type) : Type :=
  string -> bool -> Z -> idx_t -> list D -> list Z -> list Z -> sparse_read D.

(** The three namespaces [MatrixMarket], [HarwellBoeing] and [CSR]. *)
Record backends (D : Type) : Type := Backends {
  MatrixMarket_read_dense : dense_reader D;
  HarwellBoeing_read_dense : dense_reader D;
  CSR_read_dense : dense_reader D;
  MatrixMarket_read_sparse : sparse_reader D;
  HarwellBoeing_read_sparse : sparse_reader D;
  CSR_read_sparse : sparse_reader D
}.

Arguments Backends {D}.
Arguments MatrixMarket_read_dense {D}.
Arguments HarwellBoeing_read_dense {D}.
Arguments CSR_read_dense {D}.
Arguments MatrixMarket_read_sparse {D}.
Arguments HarwellBoeing_read_sparse {D}.
Arguments CSR_read_sparse {D}.

(** [fname.substr(fname.find_last_of("."))]. *)
Definition extension (fname : string) : outcome string :=
  Std.substr fname (Std.find_last_of fname "."%char).

(** The file's extension is one of the three the readers test for. *)
Definition recognized (fname : string) : Prop :=
  extension fname = Returned ".mtx"%string \/
  extension fname = Returned ".rua"%string \/
  extension fname = Returned ".csr"%string.

Section GenericRead.

(** [double], and the storage type [T] of one instantiation. *)
Variables double T : Type.

(** [typeid(T)!=typeid(double)]. *)
Variable storage_conversion_needed : bool.

(** [storage_conversion_t<double,T>]: [static_cast<T>(in)]. *)
Variable storage_conversion_t : double -> T.

(** [T()]. *)
Variable T_default : T.

(** The reference cast [(std::vector<...double...>&) a], which the code
    takes when [T] is [double]: the elements of [a] seen as [double], and
    back. *)
Variable as_double : T -> double.
Variable of_double : double -> T.

(** [max_size()] of [std::vector<T>] and of
    [std::vector<std::vector<T>>]. *)
Variables row_max_size grid_max_size : Z.

Variable backend : backends double.

(** The loop
    [for (i=0; i<another_a.size(); ++i) transform(another_a[i]..., a[i].begin(), ...)]:
    a row of [another_a] without a row of [a] indexes [a] past its end. *)
Fixpoint convert_rows (another_a : list (list double)) (a : list (list T))
  : outcome (list (list T)) :=
  match another_a, a with
  | [], _ => Returned a
  | _ :: _, [] => Undefined
  | r :: another_a', d :: a' =>
      d' ← Std.transform storage_conversion_t r d;
      a'' ← convert_rows another_a' a';
      Returned (d' :: a'')
  end.

(** [read_dense<T>(fname, roworiented, size, a)]: the value returned, with
    [size] and [a] as the call leaves them. *)
Definition read_dense (fname : string) (roworiented : bool)
    (size : idx_t) (a : list (list T))
  : outcome (bool * idx_t * list (list T)) :=
  let another_a : list (list double) := [] in
  let storage :=
    if storage_conversion_needed then another_a
    else List.map (List.map as_double) a in
  ext ← extension fname;
  r ← (if String.eqb ext ".mtx" then
         Returned (MatrixMarket_read_dense backend fname roworiented size storage)
       else if String.eqb ext ".rua" then
         Returned (HarwellBoeing_read_dense backend fname roworiented size storage)
       else if String.eqb ext ".csr" then
         Returned (CSR_read_dense backend fname roworiented size storage)
       else Threw (std_runtime_error (file_format_not_detected fname)));
  let size := dense_size r in
  if storage_conversion_needed then
    let another_a := dense_a r in
    row ← Std.vector_fill row_max_size
            (if roworiented then j size else i size) T_default;
    a ← Std.vector_fill grid_max_size
            (if roworiented then i size else j size) row;
    a ← convert_rows another_a a;
    Returned (true, size, a)
  else
    Returned (true, size, List.map (List.map of_double) (dense_a r)).

(** [read_sparse<T>(fname, roworiented, base, size, a, ia, ja)]: the value
    returned, with [size], [a], [ia] and [ja] as the call leaves them. *)
Definition read_sparse (fname : string) (roworiented : bool) (base : Z)
    (size : idx_t) (a : list T) (ia ja : list Z)
  : outcome (bool * idx_t * list T * list Z * list Z) :=
  let another_a : list double := [] in
  let storage :=
    if storage_conversion_needed then another_a else List.map as_double a in
  ext ← extension fname;
  r ← (if String.eqb ext ".mtx" then
         Returned (MatrixMarket_read_sparse backend fname roworiented base size storage ia ja)
       else if String.eqb ext ".rua" then
         Returned (HarwellBoeing_read_sparse backend fname roworiented base size storage ia ja)
       else if String.eqb ext ".csr" then
         Returned (CSR_read_sparse backend fname roworiented base size storage ia ja)
       else Threw (std_runtime_error (file_format_not_detected fname)));
  if storage_conversion_needed then
    let another_a := sparse_a r in
    a ← Std.vector_fill row_max_size (Z.of_nat (length another_a)) T_default;
    a ← Std.transform storage_conversion_t another_a a;
    Returned (true, sparse_size r, a, sparse_ia r, sparse_ja r)
  else
    Returned (true, sparse_size r, List.map of_double (sparse_a r),
              sparse_ia r, sparse_ja r).

End GenericRead.

(** ** The LAPACK linear system *)

(** [typeid(T)], as far as [solve] tells types apart. *)
Inductive type_id : Type := type_double | type_float | type_other.

(** What [dgesv_]/[sgesv_] leave in the arguments they may write: the
    coefficient buffer [a], the pivot buffer [ipiv], the right-hand-side
    buffer [b] and the status [info]. *)
Record gesv_out (T : Type) : Type := GesvOut {
  out_a : list T;
  out_ipiv : list Z;
  out_b : list T;
  out_info : Z
}.

Arguments GesvOut {T}.
Arguments out_a {T}.
Arguments out_ipiv {T}.
Arguments out_b {T}.
Arguments out_info {T}.

(** [void gesv_(int* n, int* nrhs, T* a, int* lda, int* ipiv, T* b,
    int* ldb, int* info)]: an external routine, a function of what it is
    given. *)
Definition gesv_t (T : Type) : Type :=
  Z -> Z -> list T -> Z -> list Z -> list T -> Z -> gesv_out T.

(** The native routines, to record which of them a call reached. *)
Inductive native : Type := dgesv | sgesv.

(** Modelled from the spec: [detail::dense_matrix_v] ([detail/matrix.hpp]
    is not among the sources), a dense buffer [a] with the extent
    [size()] it is shaped to. *)
Record dense_matrix_v (T : Type) : Type := DenseMatrix {
  m_size : idx_t;
  a : list T
}.

Arguments DenseMatrix {T}.
Arguments m_size {T}.
Arguments a {T}.

(** The three members [m_A], [m_b] and [m_x]. *)
Record LAPACK (T : Type) : Type := System {
  m_A : dense_matrix_v T;
  m_b : dense_matrix_v T;
  m_x : dense_matrix_v T
}.

Arguments System {T}.
Arguments m_A {T}.
Arguments m_b {T}.
Arguments m_x {T}.

(** Modelled from the spec: [linearsystem_base_t::size(d)]
    ([detail/linearsystem.hpp] is not among the sources), the matrix
    extents for [d] = 0 and 1 and the number of right-hand sides for
    [d] = 2. *)
Definition linearsystem_size {T : Type} (s : LAPACK T) (d : Z) : Z :=
  if d =? 0 then i (m_size (m_A s))
  else if d =? 1 then j (m_size (m_A s))
  else if d =? 2 then j (m_size (m_b s))
  else Int.size_max.

Section Solve.

Variable T : Type.

(** [typeid(T)]. *)
Variable typeid_T : type_id.

Variables dgesv_ sgesv_ : gesv_t T.

(** [linearsystem_base_t::size(d)], declared in a header that is not
    among the sources. *)
Variable size : LAPACK T -> Z -> Z.

(** The extent a buffer reports after [clear()], which the same header
    decides. *)
Variable cleared_size : idx_t -> idx_t.

(** Modelled from the spec: [dense_matrix_v::swap], the two buffers
    exchange their contents. *)
Definition swap (p q : dense_matrix_v T) : dense_matrix_v T * dense_matrix_v T :=
  (q, p).

(** Modelled from the spec: [dense_matrix_v::clear], the buffer is
    empty afterwards. *)
Definition clear (p : dense_matrix_v T) : dense_matrix_v T :=
  DenseMatrix (cleared_size (m_size p)) [].

(** The native routine writes through [&m_A.a[0]] and [&m_b.a[0]]. *)
Definition written (s : LAPACK T) (r : gesv_out T) : LAPACK T :=
  System (DenseMatrix (m_size (m_A s)) (out_a r))
         (DenseMatrix (m_size (m_b s)) (out_b r))
         (m_x s).

(** Lines 86-89 of [solve]: the status [err], the system and the native
    routines called. *)
Definition dispatch (s : LAPACK T) (n nrhs : Z) (ipiv : list Z)
  : Z * LAPACK T * list native :=
  if negb (idx_t.is_square_size (m_size (m_A s))) then (-17, s, [])
  else match typeid_T with
       | type_double =>
           let r := dgesv_ n nrhs (a (m_A s)) n ipiv (a (m_b s)) n in
           (out_info r, written s r, [dgesv])
       | type_float =>
           let r := sgesv_ n nrhs (a (m_A s)) n ipiv (a (m_b s)) n in
           (out_info r, written s r, [sgesv])
       | type_other => (-42, s, [])
       end.

(** The message [solve] assembles from [err]. *)
Definition what_of (err : Z) : message :=
  if err =? -17 then size_must_be_square
  else if err =? -42 then precision_not_implemented
  else if err <? 0 then invalid_argument err
  else if err >? 0 then singular err
  else empty_message.

(** [b().swap(x()); b().clear();]. *)
Definition commit (s : LAPACK T) : LAPACK T :=
  let '(b, x) := swap (m_b s) (m_x s) in
  System (m_A s) (clear b) x.

(** [LAPACK::solve()]: how the call ends, the system it leaves and the
    native routines it called. *)
Definition solve (s : LAPACK T) : outcome unit * LAPACK T * list native :=
  let n := Int.to_int (size s 0) in
  let nrhs := Int.to_int (size s 2) in
  match Std.vector_int n with
  | Returned ipiv =>
      let '(err, s', called) := dispatch s n nrhs ipiv in
      if err =? 0 then (Returned (), commit s', called)
      else (Threw (std_runtime_error (what_of err)), s', called)
  | Threw e => (Threw e, s, [])
  | Undefined => (Undefined, s, [])
  end.

(** The native routine [solve] selects and what it leaves, when the pivot
    buffer is [ipiv]. *)
Definition selected (s : LAPACK T) (ipiv : list Z) (f : native)
    (r : gesv_out T) : Prop :=
  let n := Int.to_int (size s 0) in
  let nrhs := Int.to_int (size s 2) in
  (typeid_T = type_double /\ f = dgesv /\
   r = dgesv_ n nrhs (a (m_A s)) n ipiv (a (m_b s)) n) \/
  (typeid_T = type_float /\ f = sgesv /\
   r = sgesv_ n nrhs (a (m_A s)) n ipiv (a (m_b s)) n).

(** [LAPACK::operator=]: [A() = _other.m_A;]. *)
Definition assign (s _other : LAPACK T) : LAPACK T :=
  System (m_A _other) (m_b s) (m_x s).

End Solve.

Arguments solve {T}.
Arguments dispatch {T}.
Arguments commit {T}.
Arguments assign {T}.
Arguments clear {T}.
Arguments swap {T}.
Arguments written {T}.
Arguments selected {T}.

(** ** Sample collaborators

    Concrete readers, a concrete native routine and concrete systems, to
    run the definitions above on. *)

Module Sample.

(** A reader that cannot parse its file: it reports failure and leaves its
    output parameters as they are. *)
Definition failing_dense : dense_reader Z :=
  fun _ _ size storage => DenseRead false size storage.

Definition failing_sparse : sparse_reader Z :=
  fun _ _ _ size storage ia ja => SparseRead false size storage ia ja.

Definition failing_backends : backends Z :=
  Backends failing_dense failing_dense failing_dense
           failing_sparse failing_sparse failing_sparse.

(** [gesv] for one right-hand side and a 2 by 2 column-major matrix over
    the rationals, as LAPACK documents it: LU factorisation with partial
    pivoting, the factors written over [a], the solution over [b];
    [info] is the position of a zero pivot. Other shapes are refused as an
    invalid first argument. *)
Definition gesv_2x2 : gesv_t Q :=
  fun n nrhs a lda ipiv b ldb =>
    match a, b with
    | [a11; a21; a12; a22], [b1; b2] =>
        if negb ((n =? 2) && (nrhs =? 1) && (lda =? 2) && (ldb =? 2))
        then GesvOut a ipiv b (-1)
        else
          let exchange := negb (Qle_bool (Qabs a21) (Qabs a11)) in
          let '(p11, p12, q21, q22, c1, c2) :=
            if exchange then (a21, a22, a11, a12, b2, b1)
            else (a11, a12, a21, a22, b1, b2) in
          let piv := [if exchange then 2 else 1; 2] in
          if Qeq_bool p11 0 then GesvOut a piv b 1
          else
            let l := Qred (q21 / p11) in
            let u22 := Qred (q22 - l * p12) in
            let lu := [Qred p11; l; Qred p12; u22] in
            if Qeq_bool u22 0 then GesvOut lu piv b 2
            else
              let x2 := Qred ((c2 - l * c1) / u22) in
              let x1 := Qred ((c1 - p12 * x2) / p11) in
              GesvOut lu piv [x1; x2] 0
    | _, _ => GesvOut a ipiv b (-1)
    end.

Definition vector2 (x y : Q) : dense_matrix_v Q :=
  DenseMatrix (Idx 2 1) [x; y].

(** A = diag(2,3), b = (4,9). *)
Definition diagonal : LAPACK Q :=
  System (DenseMatrix (Idx 2 2) [2#1; 0#1; 0#1; 3#1])
         (vector2 (4#1) (9#1)) (vector2 (0#1) (0#1)).

(** A = [[1,1],[1,2]], b = (3,5). *)
Definition dense2 : LAPACK Q :=
  System (DenseMatrix (Idx 2 2) [1#1; 1#1; 1#1; 2#1])
         (vector2 (3#1) (5#1)) (vector2 (0#1) (0#1)).

(** A 2 by 3 matrix. *)
Definition wide : LAPACK Q :=
  System (DenseMatrix (Idx 2 3) [1#1; 0#1; 0#1; 1#1; 0#1; 0#1])
         (vector2 (1#1) (1#1)) (vector2 (0#1) (0#1)).

(** A column of 2^31 rows: only its extent matters. *)
Definition tall : LAPACK Q :=
  System (DenseMatrix (Idx (2 ^ 31) 1) []) (vector2 (1#1) (1#1))
         (vector2 (0#1) (0#1)).

Definition solve_sample (t : type_id) (s : LAPACK Q)
  : outcome unit * LAPACK Q * list native :=
  solve t gesv_2x2 gesv_2x2 linearsystem_size idx_t.invalidate s.

End Sample.

(** ** Coordinate matrix entries *)

(** [typedef std::pair< idx_t, double > coord_t]. *)
Definition coord_t (D : Type) : Type := (idx_t * D)%type.

(** [coord_ordering_by_row_t]: [(a.first) < (b.first)]. *)
Definition coord_ordering_by_row_t {D : Type} (a b : coord_t D) : bool :=
  idx_t.lt (fst a) (fst b).

(** [coord_ordering_by_column_t]:
    [a.first.j<b.first.j? true :
       (a.first.j>b.first.j? false : (a.first.i<b.first.i))]. *)
Definition coord_ordering_by_column_t {D : Type} (a b : coord_t D) : bool :=
  if j (fst a) <? j (fst b) then true
  else if j (fst a) >? j (fst b) then false
  else i (fst a) <? i (fst b).

(** [coord_row_equal_to_t(_i)]: [i==a.first.i]. *)
Definition coord_row_equal_to_t {D : Type} (_i : Z) (a : coord_t D) : bool :=
  _i =? i (fst a).

(** [coord_column_equal_to_t(_j)]: [j==a.first.j]. *)
Definition coord_column_equal_to_t {D : Type} (_j : Z) (a : coord_t D) : bool :=
  _j =? j (fst a).

(** The entry at the transposed position. *)
Definition transposed {D : Type} (a : coord_t D) : coord_t D :=
  (Idx (j (fst a)) (i (fst a)), snd a).

(** What [std::sort] asks of a comparison: a strict weak ordering. Two
    entries are equivalent when neither is before the other. *)
Definition equivalent {A : Type} (comp : A -> A -> bool) (x y : A) : Prop :=
  comp x y = false /\ comp y x = false.

Definition strict_weak_ordering {A : Type} (comp : A -> A -> bool) : Prop :=
  (forall x, comp x x = false) /\
  (forall x y z, comp x y = true -> comp y z = true -> comp x z = true) /\
  (forall x y z,
      equivalent comp x y -> equivalent comp y z -> equivalent comp x z).

(** ** File names *)

(** The character [c] occurs in [s]. *)
Fixpoint has_char (c : ascii) (s : string) : bool :=
  match s with
  | EmptyString => false
  | String x s' => Ascii.eqb x c || has_char c s'
  end.

(** The reader the chain of tests in [read_dense] reaches for the
    extension [ext]; [None] is the final [else]. *)
Definition dense_backend_for {D : Type} (backend : backends D) (ext : string)
  : option (dense_reader D) :=
  if String.eqb ext ".mtx" then Some (MatrixMarket_read_dense backend)
  else if String.eqb ext ".rua" then Some (HarwellBoeing_read_dense backend)
  else if String.eqb ext ".csr" then Some (CSR_read_dense backend)
  else None.

(** The same for [read_sparse]. *)
Definition sparse_backend_for {D : Type} (backend : backends D) (ext : string)
  : option (sparse_reader D) :=
  if String.eqb ext ".mtx" then Some (MatrixMarket_read_sparse backend)
  else if String.eqb ext ".rua" then Some (HarwellBoeing_read_sparse backend)
  else if String.eqb ext ".csr" then Some (CSR_read_sparse backend)
  else None.

(** The extents [a.assign] in [read_dense] uses for the outer and the
    inner vectors. *)
Definition outer_extent (roworiented : bool) (size : idx_t) : Z :=
  if roworiented then i size else j size.

Definition inner_extent (roworiented : bool) (size : idx_t) : Z :=
  if roworiented then j size else i size.

(** A grid has the shape its size announces for the orientation. *)
Definition grid_shape {D : Type} (roworiented : bool) (size : idx_t)
    (g : list (list D)) : Prop :=
  length g = Z.to_nat (outer_extent roworiented size) /\
  Forall (fun row => length row = Z.to_nat (inner_extent roworiented size)) g.

(** ** More sample collaborators *)

Module Cases.

(** A reader of the 2 by 3 matrix [[1,0,2],[0,3,0]], in the orientation it
    is asked for. *)
Definition grid_dense : dense_reader Z :=
  fun _ roworiented _ _ =>
    DenseRead true (Idx 2 3)
      (if roworiented then [[1; 0; 2]; [0; 3; 0]]
       else [[1; 0]; [0; 3]; [2; 0]]).

(** The same matrix as coordinate arrays, shifted to [base]. *)
Definition grid_sparse : sparse_reader Z :=
  fun _ _ base _ _ _ _ =>
    SparseRead true (Idx 2 3) [1; 2; 3]
      [base; base; base + 1] [base; base + 2; base + 1].

Definition grid_backends : backends Z :=
  Backends grid_dense grid_dense grid_dense
           grid_sparse grid_sparse grid_sparse.

(** A reader that announces one row and delivers two. *)
Definition overlong_dense : dense_reader Z :=
  fun _ _ _ _ => DenseRead true (Idx 1 1) [[1]; [2]].

Definition overlong_backends : backends Z :=
  Backends overlong_dense overlong_dense overlong_dense
           Sample.failing_sparse Sample.failing_sparse Sample.failing_sparse.

(** [static_cast<bool>] of a number. *)
Definition to_bool (x : Z) : bool := negb (x =? 0).

(** [read_dense<bool>] and [read_sparse<bool>] over these readers, on a
    target where a vector holds at most 2^32 elements. *)
Definition read_dense_bool (b : backends Z) (fname : string)
    (roworiented : bool) (size : idx_t) (a : list (list bool))
  : outcome (bool * idx_t * list (list bool)) :=
  read_dense Z bool true to_bool false (fun _ => 0) to_bool (2 ^ 32) (2 ^ 32)
    b fname roworiented size a.

Definition read_sparse_bool (b : backends Z) (fname : string)
    (roworiented : bool) (base : Z) (size : idx_t) (a : list bool)
    (ia ja : list Z)
  : outcome (bool * idx_t * list bool * list Z * list Z) :=
  read_sparse Z bool true to_bool false (fun _ => 0) to_bool (2 ^ 32)
    b fname roworiented base size a ia ja.

(** [read_dense<double>] over these readers. *)
Definition read_dense_same (b : backends Z) (fname : string)
    (roworiented : bool) (size : idx_t) (a : list (list Z))
  : outcome (bool * idx_t * list (list Z)) :=
  read_dense Z Z false id 0 id id (2 ^ 32) (2 ^ 32)
    b fname roworiented size a.

(** A = [[1,2],[2,4]], which is singular, with b = (1,1). *)
Definition singular2 : LAPACK Q :=
  System (DenseMatrix (Idx 2 2) [1#1; 2#1; 2#1; 4#1])
         (Sample.vector2 (1#1) (1#1)) (Sample.vector2 (0#1) (0#1)).

(** A system whose matrix has the default extent. *)
Definition unsized : LAPACK Q :=
  System (DenseMatrix idx_t.default []) (DenseMatrix idx_t.default [])
         (DenseMatrix idx_t.default []).

End Cases.

(** * Properties *)

(** ** Conversions between [int] and [size_t] *)

Lemma to_size_t_range e : Int.is_size_t (Int.to_size_t e).
Proof.
  unfold Int.is_size_t, Int.to_size_t, Int.size_max.
  pose proof (Z.mod_pos_bound e (2 ^ 64) ltac:(lia)). lia.
Qed.

Lemma to_size_t_small e : 0 <= e <= Int.size_max -> Int.to_size_t e = e.
Proof.
  unfold Int.to_size_t, Int.size_max. intros He. apply Z.mod_small. lia.
Qed.

Lemma to_size_t_of_int e : Int.is_int e -> 0 <= e -> Int.to_size_t e = e.
Proof.
  unfold Int.is_int, Int.int_max. intros [_ Hhi] Hlo.
  apply to_size_t_small. unfold Int.size_max. lia.
Qed.

Lemma to_size_t_negative e :
  Int.is_int e -> e < 0 -> Int.to_size_t e = 2 ^ 64 + e.
Proof.
  unfold Int.is_int, Int.int_min, Int.to_size_t. intros [Hlo _] Hneg.
  symmetry. apply Z.mod_unique_pos with (q := -1); lia.
Qed.

Lemma to_int_range v : Int.is_int (Int.to_int v).
Proof.
  unfold Int.is_int, Int.to_int, Int.int_min, Int.int_max.
  pose proof (Z.mod_pos_bound (v + 2 ^ 31) (2 ^ 32) ltac:(lia)). lia.
Qed.


(** ** [idx_t] *)

Lemma idx_lt_spec p q : idx_t.lt p q = true <-> idx_t.lex p q.
Proof.
  unfold idx_t.lt, idx_t.lex.
  destruct (Z.ltb_spec (i p) (i q)) as [Hlt | Hge].
  - split; [left; exact Hlt | reflexivity].
  - destruct (Z.gtb_spec (i p) (i q)) as [Hgt | Hle].
    + split; [discriminate | lia].
    + rewrite Z.ltb_lt. lia.
Qed.

Lemma idx_eta p : p = Idx (i p) (j p).
Proof. destruct p; reflexivity. Qed.

Lemma idx_lex_irrefl p : ~ idx_t.lex p p.
Proof. unfold idx_t.lex. lia. Qed.

Lemma idx_lex_trans p q r : idx_t.lex p q -> idx_t.lex q r -> idx_t.lex p r.
Proof. unfold idx_t.lex. lia. Qed.

Lemma idx_lex_total p q : p <> q -> idx_t.lex p q \/ idx_t.lex q p.
Proof.
  rewrite (idx_eta p), (idx_eta q). unfold idx_t.lex. cbn. intros Hne.
  destruct (Z.eq_dec (i p) (i q)) as [Hi | Hi];
    destruct (Z.eq_dec (j p) (j q)) as [Hj | Hj]; try lia.
  exfalso. apply Hne. congruence.
Qed.

Lemma is_valid_size_lex p :
  idx_t.is_valid_size p = true <->
  idx_t.lex (Idx 0 0) p /\ idx_t.lex p idx_t.default.
Proof.
  unfold idx_t.is_valid_size, idx_t.gt.
  rewrite andb_true_iff, !idx_lt_spec. reflexivity.
Qed.

(** C8. [operator<] of [idx_t] is a strict total order: irreflexive,
    transitive and total over distinct pairs; it is the lexicographic
    row-major order, [(a,b) < (c,d)] iff [a < c], or [a = c] and [b < d];
    and (2,3) < (2,5) < (3,0). *)
Theorem idx_lt_strict_total_order :
  (forall p, idx_t.lt p p = false) /\
  (forall p q r,
      idx_t.lt p q = true -> idx_t.lt q r = true -> idx_t.lt p r = true) /\
  (forall p q, p <> q -> idx_t.lt p q = true \/ idx_t.lt q p = true) /\
  (forall a b c d,
      idx_t.lt (Idx a b) (Idx c d) = true <-> a < c \/ (a = c /\ b < d)) /\
  idx_t.lt (Idx 2 3) (Idx 2 5) = true /\
  idx_t.lt (Idx 2 5) (Idx 3 0) = true.
Proof.
  repeat split.
  - intros p. apply not_true_is_false. rewrite idx_lt_spec.
    apply idx_lex_irrefl.
  - intros p q r. rewrite !idx_lt_spec. apply idx_lex_trans.
  - intros p q Hne. rewrite !idx_lt_spec. apply idx_lex_total, Hne.
  - rewrite idx_lt_spec. unfold idx_t.lex. cbn. tauto.
  - rewrite idx_lt_spec. unfold idx_t.lex. cbn. tauto.
Qed.

(** The order at work: (2,3) < (3,0) follows by transitivity. *)
Lemma idx_lt_strict_total_order_witness :
  idx_t.lt (Idx 2 3) (Idx 3 0) = true.
Proof.
  destruct idx_lt_strict_total_order as (_ & Htrans & _ & _ & H1 & H2).
  exact (Htrans (Idx 2 3) (Idx 2 5) (Idx 3 0) H1 H2).
Defined.

(** C4, as the code has it. For a pair of [size_t] coordinates,
    [is_valid_size()] is true exactly when the pair lies strictly between
    (0,0) and the default pair in the lexicographic order of [operator<],
    that is, when it is neither (0,0) nor the default pair. It is false
    for (0,0) and for the default pair, and true for (0,k) with
    0 < k. *)
Theorem is_valid_size_iff p :
  idx_t.wf p ->
  (idx_t.is_valid_size p = true <->
   idx_t.lex (Idx 0 0) p /\ idx_t.lex p idx_t.default) /\
  (idx_t.is_valid_size p = true <-> p <> Idx 0 0 /\ p <> idx_t.default) /\
  idx_t.is_valid_size (Idx 0 0) = false /\
  idx_t.is_valid_size idx_t.default = false /\
  (i p = 0 -> 0 < j p -> idx_t.is_valid_size p = true).
Proof.
  intros [Hi Hj].
  assert (Hiff : idx_t.is_valid_size p = true <->
                 p <> Idx 0 0 /\ p <> idx_t.default).
  { rewrite is_valid_size_lex. rewrite (idx_eta p) at 3 4.
    unfold idx_t.lex, idx_t.default, Int.is_size_t in *. cbn.
    split.
    - intros [H0 Hmax]. split; intros Heq; inversion Heq; lia.
    - intros [H0 Hmax]. split.
      + destruct (Z.eq_dec (i p) 0) as [Hi0 | Hi0]; [right | lia].
        split; [lia |].
        destruct (Z.eq_dec (j p) 0) as [Hj0 | Hj0]; [| lia].
        exfalso. apply H0. congruence.
      + destruct (Z.eq_dec (i p) Int.size_max) as [Him | Him]; [right | lia].
        split; [lia |].
        destruct (Z.eq_dec (j p) Int.size_max) as [Hjm | Hjm]; [| lia].
        exfalso. apply Hmax. congruence. }
  split; [apply is_valid_size_lex |].
  split; [exact Hiff |].
  split; [reflexivity |].
  split; [reflexivity |].
  intros Hi0 Hj0. apply Hiff. rewrite (idx_eta p), Hi0.
  unfold idx_t.default, Int.size_max.
  split; intros Heq; inversion Heq; lia.
Qed.

Lemma is_valid_size_iff_witness :
  idx_t.wf (Idx 0 7) /\
  (idx_t.is_valid_size (Idx 0 7) = true <->
   Idx 0 7 <> Idx 0 0 /\ Idx 0 7 <> idx_t.default) /\
  idx_t.is_valid_size (Idx 0 7) = true.
Proof.
  assert (Hwf : idx_t.wf (Idx 0 7)).
  { unfold idx_t.wf, Int.is_size_t, Int.size_max. cbn. lia. }
  destruct (is_valid_size_iff (Idx 0 7) Hwf) as (_ & Hiff & _ & _ & H).
  split; [exact Hwf |]. split; [exact Hiff |].
  apply H; cbn; lia.
Defined.

(** C4, as it is written, fails: (0,5) has [i == 0] and is a valid
    size. *)
Lemma is_valid_size_zero_row :
  idx_t.wf (Idx 0 5) /\
  i (Idx 0 5) = 0 /\
  idx_t.is_valid_size (Idx 0 5) = true.
Proof.
  split; [| split; reflexivity].
  unfold idx_t.wf, Int.is_size_t, Int.size_max. cbn. lia.
Qed.

(** ** Sorting and removal of duplicates *)

Lemma sort_sorted v : StronglySorted Z.le (Std.sort v).
Proof. unfold Std.sort. apply StronglySorted_merge_sort; apply _. Qed.

Lemma sort_permutation v : Std.sort v ≡ₚ v.
Proof. unfold Std.sort. apply merge_sort_Permutation. Qed.

Lemma elem_of_sort v x : x ∈ Std.sort v <-> x ∈ v.
Proof. rewrite (sort_permutation v). reflexivity. Qed.

Lemma elem_of_unique_from prev v x :
  x ∈ prev :: Std.unique_from prev v <-> x ∈ prev :: v.
Proof.
  revert prev. induction v as [| y v IH]; intros prev; cbn; [reflexivity |].
  destruct (Z.eqb_spec prev y) as [-> | Hne].
  - rewrite IH, !elem_of_cons. tauto.
  - rewrite (elem_of_cons _ x prev), IH, <- elem_of_cons. reflexivity.
Qed.

Lemma elem_of_unique v x : x ∈ Std.unique v <-> x ∈ v.
Proof. destruct v as [| y v]; cbn; [reflexivity | apply elem_of_unique_from]. Qed.

Lemma unique_from_ascending prev v :
  StronglySorted Z.le v -> Forall (Z.le prev) v ->
  StronglySorted Z.lt (Std.unique_from prev v) /\
  Forall (Z.lt prev) (Std.unique_from prev v).
Proof.
  revert prev. induction v as [| y v IH]; intros prev Hs Hp; cbn.
  - split; constructor.
  - apply StronglySorted_cons in Hs as [Hy Hs].
    apply Forall_cons in Hp as [Hpy Hp].
    destruct (Z.eqb_spec prev y) as [-> | Hne].
    + apply IH; assumption.
    + destruct (IH y Hs Hy) as [Hs' Hy'].
      split.
      * constructor; assumption.
      * constructor; [lia |].
        eapply Forall_impl; [exact Hy' |]. cbn. intros z Hz. lia.
Qed.

Lemma unique_ascending v :
  StronglySorted Z.le v -> strictly_ascending (Std.unique v).
Proof.
  unfold strictly_ascending. destruct v as [| y v]; cbn; intros Hs.
  - constructor.
  - apply StronglySorted_cons in Hs as [Hy Hs].
    destruct (unique_from_ascending y v Hs Hy) as [Hs' Hy'].
    constructor; assumption.
Qed.

(** A sorted vector without equal neighbours is left as it is. *)
Lemma unique_from_id prev v :
  StronglySorted Z.lt v -> Forall (Z.lt prev) v -> Std.unique_from prev v = v.
Proof.
  revert prev. induction v as [| y v IH]; intros prev Hs Hp; cbn; [reflexivity |].
  apply StronglySorted_cons in Hs as [Hy Hs].
  apply Forall_cons in Hp as [Hpy Hp].
  destruct (Z.eqb_spec prev y) as [-> | Hne]; [lia |].
  f_equal. apply IH; assumption.
Qed.

Lemma strictly_ascending_NoDup v : strictly_ascending v -> NoDup v.
Proof.
  unfold strictly_ascending. induction 1 as [| x v Hs IH Hx]; constructor.
  - intros Hin. rewrite Forall_forall in Hx. specialize (Hx x Hin). lia.
  - exact IH.
Qed.

(** Two strictly ascending vectors with the same elements are the same
    vector. *)
Lemma strictly_ascending_ext v w :
  strictly_ascending v -> strictly_ascending w ->
  (forall x, x ∈ v <-> x ∈ w) -> v = w.
Proof.
  intros Hv Hw Hvw.
  apply (StronglySorted_unique_strong Z.lt); [| assumption | assumption |].
  - intros x1 x2 _ _ H12 H21. lia.
  - apply NoDup_Permutation; auto using strictly_ascending_NoDup.
Qed.

Lemma sort_unique_ascending v e : strictly_ascending (vector_sort_unique v e).
Proof. unfold vector_sort_unique. apply unique_ascending, sort_sorted. Qed.

Lemma elem_of_sort_unique v e x : x ∈ vector_sort_unique v e <-> x ∈ v.
Proof. unfold vector_sort_unique. rewrite elem_of_unique, elem_of_sort. reflexivity. Qed.

Lemma elem_of_remove v e x :
  x ∈ vector_element_remove v e <-> x ∈ v /\ x <> Int.to_size_t e.
Proof.
  unfold vector_element_remove, Std.remove_if, equal_to.
  rewrite !list_elem_of_In, List.filter_In, negb_true_iff, Z.eqb_neq.
  intuition congruence.
Qed.

Lemma NoDup_count_occ_1 (v : list Z) x :
  NoDup v -> x ∈ v -> count_occ Z.eq_dec v x = 1%nat.
Proof.
  rewrite NoDup_ListNoDup, list_elem_of_In, (List.NoDup_count_occ' Z.eq_dec).
  intros H. apply H.
Qed.

(** ** The pipelines *)

Lemma vector_sorted_t_unfold v e :
  vector_sorted_t v e = Std.unique (Std.sort (v ++ [Int.to_size_t e])).
Proof. reflexivity. Qed.

Lemma vector_sorted_diagonal_first_t_unfold v e :
  vector_sorted_diagonal_first_t v e =
  Int.to_size_t e
    :: Std.unique (Std.sort (Std.remove_if (equal_to (Int.to_size_t e)) v)).
Proof. reflexivity. Qed.

Lemma elem_of_vector_sorted_t v e x :
  x ∈ vector_sorted_t v e <-> x ∈ v \/ x = Int.to_size_t e.
Proof.
  rewrite vector_sorted_t_unfold, elem_of_unique, elem_of_sort, elem_of_app,
    list_elem_of_singleton. reflexivity.
Qed.

Lemma vector_sorted_t_ascending v e : strictly_ascending (vector_sorted_t v e).
Proof. rewrite vector_sorted_t_unfold. apply unique_ascending, sort_sorted. Qed.

(** C5. For every index vector and every pivot, the
    sorted-diagonal-first pipeline yields a vector whose first element is
    the pivot (as the [size_t] it is converted to, which is the pivot
    itself when it is not negative), whose remaining elements are strictly
    ascending and free of duplicates, and among which the pivot does not
    occur again. The remaining elements are those of the input other than
    the pivot. *)
Theorem vector_sorted_diagonal_first_t_spec (v : list Z) (e : Z) :
  let r := vector_sorted_diagonal_first_t v e in
  hd_error r = Some (Int.to_size_t e) /\
  strictly_ascending (tl r) /\
  NoDup (tl r) /\
  (Int.to_size_t e ∉ tl r) /\
  (forall x, x ∈ tl r <-> x ∈ v /\ x <> Int.to_size_t e) /\
  (0 <= e <= Int.int_max -> hd_error r = Some e).
Proof.
  cbv zeta. rewrite vector_sorted_diagonal_first_t_unfold. cbn [hd_error tl].
  assert (Hasc : strictly_ascending
            (Std.unique (Std.sort (Std.remove_if (equal_to (Int.to_size_t e)) v)))).
  { apply unique_ascending, sort_sorted. }
  assert (Hin : forall x,
            x ∈ Std.unique (Std.sort (Std.remove_if (equal_to (Int.to_size_t e)) v))
            <-> x ∈ v /\ x <> Int.to_size_t e).
  { intros x. rewrite elem_of_unique, elem_of_sort. apply elem_of_remove. }
  split; [reflexivity |].
  split; [exact Hasc |].
  split; [apply strictly_ascending_NoDup, Hasc |].
  split; [rewrite Hin; tauto |].
  split; [exact Hin |].
  intros He. rewrite to_size_t_small; [reflexivity |].
  unfold Int.int_max, Int.size_max in *. lia.
Qed.

Lemma vector_sorted_diagonal_first_t_spec_witness :
  vector_sorted_diagonal_first_t [5; 3; 9; 3; 7; 5] 5 = [5; 3; 7; 9] /\
  hd_error (vector_sorted_diagonal_first_t [5; 3; 9; 3; 7; 5] 5) = Some 5.
Proof.
  split; [reflexivity |].
  destruct (vector_sorted_diagonal_first_t_spec [5; 3; 9; 3; 7; 5] 5)
    as (_ & _ & _ & _ & _ & H).
  apply H. unfold Int.int_max. lia.
Defined.

(** C6. For every strictly ascending (hence duplicate-free) index vector
    and every pivot, the sorted pipeline yields a strictly ascending,
    duplicate-free vector that holds the pivot exactly once, beside the
    elements of the input; applied again with the same pivot it leaves
    that vector unchanged. *)
Theorem vector_sorted_t_spec (v : list Z) (e : Z) :
  strictly_ascending v ->
  let r := vector_sorted_t v e in
  strictly_ascending r /\
  NoDup r /\
  count_occ Z.eq_dec r (Int.to_size_t e) = 1%nat /\
  (0 <= e <= Int.int_max -> count_occ Z.eq_dec r e = 1%nat) /\
  (forall x, x ∈ r <-> x ∈ v \/ x = Int.to_size_t e) /\
  vector_sorted_t r e = r.
Proof.
  intros _. cbv zeta.
  pose proof (vector_sorted_t_ascending v e) as Hasc.
  pose proof (strictly_ascending_NoDup _ Hasc) as Hnd.
  split; [exact Hasc |].
  split; [exact Hnd |].
  assert (Hone : count_occ Z.eq_dec (vector_sorted_t v e) (Int.to_size_t e)
                 = 1%nat).
  { apply NoDup_count_occ_1; [exact Hnd |].
    apply elem_of_vector_sorted_t. right. reflexivity. }
  split; [exact Hone |].
  split.
  { intros He. rewrite to_size_t_small in Hone; [exact Hone |].
    unfold Int.int_max, Int.size_max in *. lia. }
  split; [apply elem_of_vector_sorted_t |].
  apply strictly_ascending_ext.
  - apply vector_sorted_t_ascending.
  - exact Hasc.
  - intros x. rewrite !elem_of_vector_sorted_t. tauto.
Qed.

Lemma vector_sorted_t_spec_witness :
  strictly_ascending [3; 5; 9] /\
  vector_sorted_t [3; 5; 9] 4 = [3; 4; 5; 9] /\
  vector_sorted_t (vector_sorted_t [3; 5; 9] 4) 4 = vector_sorted_t [3; 5; 9] 4.
Proof.
  assert (H : strictly_ascending [3; 5; 9]).
  { unfold strictly_ascending. repeat constructor. }
  split; [exact H |].
  split; [reflexivity |].
  apply (vector_sorted_t_spec [3; 5; 9] 4 H).
Defined.

(** The sorted pipeline needs no sorted input for any of this. *)
Lemma vector_sorted_t_idempotent v e :
  vector_sorted_t (vector_sorted_t v e) e = vector_sorted_t v e.
Proof.
  apply strictly_ascending_ext; try apply vector_sorted_t_ascending.
  intros x. rewrite !elem_of_vector_sorted_t. tauto.
Qed.

(** ** The offset shift *)

(** [add_value] leaves the element it is called on as it is. *)
Lemma add_value_keeps diff v : fst (add_value diff v) = v.
Proof. reflexivity. Qed.

Lemma for_each_keeps {A R : Type} (f : A -> A * R) (v : list A) :
  (forall x, fst (f x) = x) -> Std.for_each f v = v.
Proof.
  intros Hf. unfold Std.for_each. induction v as [| x v IH]; cbn.
  - reflexivity.
  - rewrite Hf, IH. reflexivity.
Qed.

(** C3, on the code: [vector_add_value] leaves every vector as it is; on
    (1,2,3) with the shift 1 the result is (1,2,3), not (2,3,4). The
    functor [base_conversion_t], applied the same way, shifts. *)
Theorem vector_add_value_discards_sum :
  (forall v e, vector_add_value v e = v) /\
  vector_add_value [1; 2; 3] 1 = [1; 2; 3] /\
  vector_add_value [1; 2; 3] 1 <> [2; 3; 4] /\
  Std.for_each (base_conversion_t 1) [1; 2; 3] = [2; 3; 4].
Proof.
  split.
  - intros v e. unfold vector_add_value. apply for_each_keeps.
    intros x. apply add_value_keeps.
  - split; [reflexivity |]. split; [discriminate | reflexivity].
Qed.

(** ** Generic I/O *)

Ltac outcome_cases :=
  repeat match goal with
    | H : Returned _ = Returned _ |- _ => inversion H; subst; clear H
    | H : Threw _ = Returned _ |- _ => discriminate H
    | H : Undefined = Returned _ |- _ => discriminate H
    | H : context [match ?c with Returned _ => _ | Threw _ => _ | Undefined => _ end] |- _ =>
        destruct c eqn:?
    | H : context [if ?c then _ else _] |- _ => destruct c eqn:?
    end.

Section GenericReadFacts.

Variables double T : Type.
Variable storage_conversion_needed : bool.
Variable storage_conversion_t : double -> T.
Variable T_default : T.
Variable as_double : T -> double.
Variable of_double : double -> T.
Variables row_max_size grid_max_size : Z.
Variable backend : backends double.

(** Whatever [read_dense] returns, it returns [true]. *)
Lemma read_dense_returns_only_true fname roworiented size a ok size' a' :
  read_dense double T storage_conversion_needed storage_conversion_t
    T_default as_double of_double row_max_size grid_max_size backend
    fname roworiented size a = Returned (ok, size', a') ->
  ok = true.
Proof.
  unfold read_dense, mbind, outcome_bind. intros H.
  outcome_cases; reflexivity.
Qed.

(** Whatever [read_sparse] returns, it returns [true]. *)
Lemma read_sparse_returns_only_true fname roworiented base size a ia ja
    ok size' a' ia' ja' :
  read_sparse double T storage_conversion_needed storage_conversion_t
    T_default as_double of_double row_max_size backend
    fname roworiented base size a ia ja = Returned (ok, size', a', ia', ja') ->
  ok = true.
Proof.
  unfold read_sparse, mbind, outcome_bind. intros H.
  outcome_cases; reflexivity.
Qed.

(** Without storage conversion, a file of a recognized extension is read
    and [true] is returned, whatever the backend reports. *)
Lemma read_dense_recognized fname roworiented size a :
  recognized fname ->
  exists r,
    read_dense double T false storage_conversion_t
      T_default as_double of_double row_max_size grid_max_size backend
      fname roworiented size a
    = Returned (true, dense_size r, List.map (List.map of_double) (dense_a r)) /\
    (r = MatrixMarket_read_dense backend fname roworiented size
           (List.map (List.map as_double) a) \/
     r = HarwellBoeing_read_dense backend fname roworiented size
           (List.map (List.map as_double) a) \/
     r = CSR_read_dense backend fname roworiented size
           (List.map (List.map as_double) a)).
Proof.
  unfold recognized, read_dense, mbind, outcome_bind.
  intros [-> | [-> | ->]]; cbn; eexists; split; eauto.
Qed.

Lemma read_sparse_recognized fname roworiented base size a ia ja :
  recognized fname ->
  exists r,
    read_sparse double T false storage_conversion_t
      T_default as_double of_double row_max_size backend
      fname roworiented base size a ia ja
    = Returned (true, sparse_size r, List.map of_double (sparse_a r),
                sparse_ia r, sparse_ja r) /\
    (r = MatrixMarket_read_sparse backend fname roworiented base size
           (List.map as_double a) ia ja \/
     r = HarwellBoeing_read_sparse backend fname roworiented base size
           (List.map as_double a) ia ja \/
     r = CSR_read_sparse backend fname roworiented base size
           (List.map as_double a) ia ja).
Proof.
  unfold recognized, read_sparse, mbind, outcome_bind.
  intros [-> | [-> | ->]]; cbn; eexists; split; eauto.
Qed.

End GenericReadFacts.

(** C1, on the code: the file [a.mtx] has a recognized extension, its
    backend reports failure, and [read_dense] and [read_sparse] return
    [true]. *)
Theorem read_returns_true_on_backend_failure :
  recognized "a.mtx"%string /\
  dense_ok (MatrixMarket_read_dense Sample.failing_backends
              "a.mtx"%string true idx_t.default []) = false /\
  read_dense Z Z false id 0 id id Int.size_max Int.size_max
    Sample.failing_backends "a.mtx"%string true idx_t.default []
  = Returned (true, idx_t.default, []) /\
  sparse_ok (MatrixMarket_read_sparse Sample.failing_backends
               "a.mtx"%string true 0 idx_t.default [] [] []) = false /\
  read_sparse Z Z false id 0 id id Int.size_max
    Sample.failing_backends "a.mtx"%string true 0 idx_t.default [] [] []
  = Returned (true, idx_t.default, [], [], []).
Proof.
  split; [left; reflexivity |]. repeat split.
Qed.

(** ** The pivot buffer *)

Lemma vector_int_nonneg n :
  Int.is_int n -> 0 <= n ->
  Std.vector_int n = Returned (repeat 0 (Z.to_nat n)).
Proof.
  intros Hn H0. unfold Std.vector_int, Std.vector_fill.
  rewrite (to_size_t_of_int n Hn H0).
  destruct (Z.ltb_spec Std.vector_int_max_size n) as [Hlt | _]; [| reflexivity].
  exfalso. revert Hlt. destruct Hn as [_ Hmax]. revert Hmax.
  unfold Int.int_max, Std.vector_int_max_size, Int.size_max.
  change ((2 ^ 64 - 1) / 4) with 4611686018427387903. lia.
Qed.

Lemma vector_int_negative n :
  Int.is_int n -> n < 0 -> Std.vector_int n = Threw std_length_error.
Proof.
  intros Hn H0. unfold Std.vector_int, Std.vector_fill.
  rewrite (to_size_t_negative n Hn H0).
  destruct (Z.ltb_spec Std.vector_int_max_size (2 ^ 64 + n)) as [_ | Hge];
    [reflexivity |].
  exfalso. revert Hge. destruct Hn as [Hmin _]. revert Hmin.
  unfold Int.int_min, Std.vector_int_max_size, Int.size_max.
  change ((2 ^ 64 - 1) / 4) with 4611686018427387903. lia.
Qed.

Lemma vector_int_never_undefined n : Std.vector_int n <> Undefined.
Proof.
  unfold Std.vector_int, Std.vector_fill.
  destruct (_ <? _); discriminate.
Qed.

(** ** [LAPACK::solve] *)

Lemma what_of_nonzero err : err <> 0 -> what_of err <> empty_message.
Proof.
  intros Herr. unfold what_of.
  destruct (Z.eqb_spec err (-17)); [discriminate |].
  destruct (Z.eqb_spec err (-42)); [discriminate |].
  destruct (Z.ltb_spec err 0); [discriminate |].
  destruct (Z.gtb_spec err 0); [discriminate | lia].
Qed.

Section SolveFacts.

Variable T : Type.
Variable typeid_T : type_id.
Variables dgesv_ sgesv_ : gesv_t T.
Variable size : LAPACK T -> Z -> Z.
Variable cleared_size : idx_t -> idx_t.

Lemma dispatch_square s ipiv f r :
  idx_t.is_square_size (m_size (m_A s)) = true ->
  selected typeid_T dgesv_ sgesv_ size s ipiv f r ->
  dispatch typeid_T dgesv_ sgesv_ s
    (Int.to_int (size s 0)) (Int.to_int (size s 2)) ipiv
  = (out_info r, written s r, [f]).
Proof.
  intros Hsq Hsel. unfold dispatch. rewrite Hsq. cbn.
  destruct Hsel as [(-> & -> & ->) | (-> & -> & ->)]; reflexivity.
Qed.

(** Before any native routine is reached, [dispatch] leaves the system as
    it is. *)
Lemma dispatch_refused s n nrhs ipiv :
  idx_t.is_square_size (m_size (m_A s)) = false \/ typeid_T = type_other ->
  exists err,
    dispatch typeid_T dgesv_ sgesv_ s n nrhs ipiv = (err, s, []) /\
    err <> 0 /\
    (idx_t.is_square_size (m_size (m_A s)) = false -> err = -17).
Proof.
  unfold dispatch.
  destruct (idx_t.is_square_size (m_size (m_A s))) eqn:Hsq; cbn.
  - intros [Hns | ->]; [discriminate |].
    exists (-42). repeat split; [lia | discriminate].
  - intros _. exists (-17). repeat split; lia.
Qed.

(** A matrix that is not square, with a row count that is not negative as
    an [int]: [solve] throws the dimension error, which is none of the
    messages for a status of the native routine, leaves the system as it is
    and calls no native routine. *)
Lemma solve_not_square s :
  idx_t.is_square_size (m_size (m_A s)) = false ->
  0 <= Int.to_int (size s 0) ->
  solve typeid_T dgesv_ sgesv_ size cleared_size s
  = (Threw (std_runtime_error size_must_be_square), s, []) /\
  (forall err, size_must_be_square <> invalid_argument err) /\
  (forall err, size_must_be_square <> singular err).
Proof.
  intros Hsq Hn. split; [| split; discriminate].
  unfold solve.
  rewrite (vector_int_nonneg _ (to_int_range _) Hn).
  unfold dispatch. rewrite Hsq. reflexivity.
Qed.

(** Whatever its row count, a matrix that is not square reaches no native
    routine, and [solve] does not return. *)
Lemma solve_not_square_calls_nothing s :
  idx_t.is_square_size (m_size (m_A s)) = false ->
  snd (solve typeid_T dgesv_ sgesv_ size cleared_size s) = [] /\
  fst (fst (solve typeid_T dgesv_ sgesv_ size cleared_size s)) <> Returned ().
Proof.
  intros Hsq. unfold solve.
  destruct (Std.vector_int (Int.to_int (size s 0))) as [ipiv | e |].
  - unfold dispatch. rewrite Hsq. cbn. split; [reflexivity | discriminate].
  - cbn. split; [reflexivity | discriminate].
  - cbn. split; [reflexivity | discriminate].
Qed.

(** C2, as the code has it. For a square system whose pivot buffer is
    built and whose native routine reports status 0, [solve] returns; the
    solution buffer x then holds what the native routine left in the
    right-hand-side buffer, the right-hand-side buffer b is empty, and the
    matrix buffer A holds what the native routine left in the coefficient
    buffer, under the same extent. A is as before the call when the native
    routine leaves its coefficient argument as it is. *)
Theorem solve_commits_solution s ipiv f r :
  idx_t.is_square_size (m_size (m_A s)) = true ->
  Std.vector_int (Int.to_int (size s 0)) = Returned ipiv ->
  selected typeid_T dgesv_ sgesv_ size s ipiv f r ->
  out_info r = 0 ->
  exists s',
    solve typeid_T dgesv_ sgesv_ size cleared_size s = (Returned (), s', [f]) /\
    a (m_x s') = out_b r /\
    a (m_b s') = [] /\
    a (m_A s') = out_a r /\
    m_size (m_A s') = m_size (m_A s) /\
    (out_a r = a (m_A s) -> m_A s' = m_A s).
Proof.
  intros Hsq Hpiv Hsel Hinfo.
  exists (commit cleared_size (written s r)).
  unfold solve. rewrite Hpiv, (dispatch_square s ipiv f r Hsq Hsel), Hinfo.
  cbn. repeat split.
  intros ->. destruct (m_A s); reflexivity.
Qed.

(** C9. When [solve] fails before it reaches a native routine, because the
    matrix is not square or because [T] is neither [double] nor [float], an
    exception is thrown, no native routine has been called and A, b and x
    are as they were before the call. *)
Theorem solve_refused_keeps_system s :
  idx_t.is_square_size (m_size (m_A s)) = false \/ typeid_T = type_other ->
  exists e,
    solve typeid_T dgesv_ sgesv_ size cleared_size s = (Threw e, s, []).
Proof.
  intros Hwhy. unfold solve.
  destruct (Std.vector_int (Int.to_int (size s 0))) as [ipiv | e |] eqn:Hpiv.
  - destruct (dispatch_refused s
                (Int.to_int (size s 0)) (Int.to_int (size s 2)) ipiv Hwhy)
      as (err & -> & Herr & _).
    apply Z.eqb_neq in Herr. rewrite Herr. eexists. reflexivity.
  - exists e. reflexivity.
  - exfalso. exact (vector_int_never_undefined _ Hpiv).
Qed.

(** C10. [operator=] copies the coefficient matrix A of the source; the
    right-hand-side buffer b and the solution buffer x of the target are
    left as they are. *)
Theorem assign_copies_matrix_only (s _other : LAPACK T) :
  m_A (assign s _other) = m_A _other /\
  m_b (assign s _other) = m_b s /\
  m_x (assign s _other) = m_x s.
Proof. repeat split. Qed.

End SolveFacts.

Lemma solve_commits_solution_witness :
  exists s',
    Sample.solve_sample type_double Sample.diagonal
    = (Returned (), s', [dgesv]) /\
    a (m_x s') = [2#1; 3#1]%Q /\
    a (m_b s') = [] /\
    a (m_A s') = [2#1; 0#1; 0#1; 3#1]%Q /\
    m_size (m_A s') = Idx 2 2 /\
    ([2#1; 0#1; 0#1; 3#1]%Q = a (m_A Sample.diagonal) ->
     m_A s' = m_A Sample.diagonal).
Proof.
  apply (solve_commits_solution Q type_double Sample.gesv_2x2 Sample.gesv_2x2
           linearsystem_size idx_t.invalidate Sample.diagonal [0; 0] dgesv
           (Sample.gesv_2x2 2 1 (a (m_A Sample.diagonal)) 2 [0; 0]
              (a (m_b Sample.diagonal)) 2)).
  - reflexivity.
  - reflexivity.
  - left. repeat split.
  - reflexivity.
Defined.

(** C2, as it is written, fails: for A = [[1,1],[1,2]] and b = (3,5) the
    native routine reports status 0 and leaves x = (1,2), and the matrix
    buffer holds the factors L and U afterwards. *)
Lemma solve_overwrites_matrix :
  idx_t.is_square_size (m_size (m_A Sample.dense2)) = true /\
  fst (Sample.solve_sample type_double Sample.dense2)
  = (Returned (),
     System (DenseMatrix (Idx 2 2) [1#1; 1#1; 1#1; 1#1]%Q)
            (DenseMatrix idx_t.default [])
            (DenseMatrix (Idx 2 1) [1#1; 2#1]%Q)) /\
  m_A (snd (fst (Sample.solve_sample type_double Sample.dense2)))
  <> m_A Sample.dense2.
Proof.
  split; [reflexivity |]. split; [reflexivity |].
  vm_compute. discriminate.
Qed.

Lemma solve_refused_keeps_system_witness :
  (exists e, Sample.solve_sample type_double Sample.wide
             = (Threw e, Sample.wide, [])) /\
  (exists e, Sample.solve_sample type_other Sample.diagonal
             = (Threw e, Sample.diagonal, [])).
Proof.
  split.
  - apply (solve_refused_keeps_system Q type_double Sample.gesv_2x2
             Sample.gesv_2x2 linearsystem_size idx_t.invalidate Sample.wide).
    left. reflexivity.
  - apply (solve_refused_keeps_system Q type_other Sample.gesv_2x2
             Sample.gesv_2x2 linearsystem_size idx_t.invalidate Sample.diagonal).
    right. reflexivity.
Defined.

(** C7, on the code: a matrix of 2^31 rows and one column is not square;
    [n] is -2^31, the pivot buffer cannot be built, and [solve] throws
    [std::length_error] before it tests the extent. *)
Theorem solve_tall_matrix_length_error :
  idx_t.is_square_size (m_size (m_A Sample.tall)) = false /\
  Int.to_int (linearsystem_size Sample.tall 0) = - 2 ^ 31 /\
  Sample.solve_sample type_double Sample.tall
  = (Threw std_length_error, Sample.tall, []).
Proof. repeat split. Qed.

(** The 2 by 3 system meets the dimension error. *)
Lemma solve_not_square_witness :
  Sample.solve_sample type_double Sample.wide
  = (Threw (std_runtime_error size_must_be_square), Sample.wide, []) /\
  (forall err, size_must_be_square <> invalid_argument err) /\
  (forall err, size_must_be_square <> singular err).
Proof.
  apply (solve_not_square Q type_double Sample.gesv_2x2 Sample.gesv_2x2
           linearsystem_size idx_t.invalidate Sample.wide); [reflexivity |].
  vm_compute. discriminate.
Defined.

(** * Further properties *)

(** ** [idx_t]: the comparison operators together *)

Ltac compare_cases :=
  repeat match goal with
    | |- context [?x <? ?y] => destruct (Z.ltb_spec x y)
    | |- context [?x >? ?y] => destruct (Z.gtb_spec x y)
    | |- context [?x =? ?y] => destruct (Z.eqb_spec x y)
    end.

(** X2. Of [p < q], [p == q] and [p > q] exactly one holds for any two
    index pairs; [!=] is the negation of [==], and [==] holds exactly for
    equal pairs. *)
Theorem idx_comparison_trichotomy p q :
  ((idx_t.lt p q = true /\ idx_t.eq p q = false /\ idx_t.gt p q = false) \/
   (idx_t.lt p q = false /\ idx_t.eq p q = true /\ idx_t.gt p q = false) \/
   (idx_t.lt p q = false /\ idx_t.eq p q = false /\ idx_t.gt p q = true)) /\
  idx_t.ne p q = negb (idx_t.eq p q) /\
  (idx_t.eq p q = true <-> p = q).
Proof.
  destruct p as [pi pj], q as [qi qj].
  unfold idx_t.gt, idx_t.lt, idx_t.eq, idx_t.ne. cbn.
  split; [| split].
  - compare_cases; cbn; try lia; intuition congruence.
  - compare_cases; reflexivity.
  - compare_cases; cbn; split; intros Heq; try discriminate Heq;
      try reflexivity; try congruence; inversion Heq; lia.
Qed.

(** X3. A valid square size has one positive extent below the largest
    [size_t], in both coordinates. *)
Theorem valid_square_size_positive p :
  idx_t.wf p ->
  idx_t.is_valid_size p = true ->
  idx_t.is_square_size p = true ->
  0 < i p < Int.size_max /\ j p = i p /\ idx_t.is_diagonal p = true.
Proof.
  intros [Hi Hj] Hvalid Hsq.
  apply is_valid_size_lex in Hvalid as [H0 Hmax].
  unfold idx_t.is_diagonal. rewrite Hsq.
  unfold idx_t.is_square_size in Hsq. apply Z.eqb_eq in Hsq.
  unfold idx_t.lex, idx_t.default, Int.is_size_t in *. cbn in *. lia.
Qed.

Lemma valid_square_size_positive_witness :
  idx_t.wf (Idx 3 3) /\ 0 < i (Idx 3 3) < Int.size_max.
Proof.
  assert (Hwf : idx_t.wf (Idx 3 3)).
  { unfold idx_t.wf, Int.is_size_t, Int.size_max. cbn. lia. }
  split; [exact Hwf |].
  apply (valid_square_size_positive (Idx 3 3) Hwf); reflexivity.
Defined.

(** X4. [invalidate()] leaves the default pair whatever the pair was: not
    a valid size, above every other pair of [size_t] coordinates, and yet
    square. *)
Theorem invalidate_sentinel p q :
  idx_t.wf q ->
  idx_t.invalidate p = idx_t.default /\
  idx_t.is_valid_size (idx_t.invalidate p) = false /\
  idx_t.is_square_size (idx_t.invalidate p) = true /\
  idx_t.lt (idx_t.invalidate p) q = false /\
  (q <> idx_t.default -> idx_t.lt q (idx_t.invalidate p) = true).
Proof.
  intros [Hi Hj].
  split; [reflexivity |]. split; [reflexivity |]. split; [reflexivity |].
  unfold idx_t.invalidate. split.
  - apply not_true_is_false. rewrite idx_lt_spec.
    unfold idx_t.lex, idx_t.default, Int.is_size_t in *. cbn. lia.
  - intros Hne. apply idx_lt_spec.
    destruct (idx_lex_total q idx_t.default Hne) as [H | H]; [exact H |].
    exfalso. unfold idx_t.lex, idx_t.default, Int.is_size_t in *.
    cbn in H. lia.
Qed.

Lemma invalidate_sentinel_witness :
  idx_t.lt (Idx 2 3) (idx_t.invalidate (Idx 7 7)) = true.
Proof.
  assert (Hwf : idx_t.wf (Idx 2 3)).
  { unfold idx_t.wf, Int.is_size_t, Int.size_max. cbn. lia. }
  destruct (invalidate_sentinel (Idx 7 7) (Idx 2 3) Hwf) as (_ & _ & _ & _ & H).
  apply H. discriminate.
Defined.

(** ** Coordinate entries *)

Lemma by_row_spec {D : Type} (a b : coord_t D) :
  coord_ordering_by_row_t a b = true <-> idx_t.lex (fst a) (fst b).
Proof. apply idx_lt_spec. Qed.

Lemma by_column_spec {D : Type} (a b : coord_t D) :
  coord_ordering_by_column_t a b = true <->
  j (fst a) < j (fst b) \/ (j (fst a) = j (fst b) /\ i (fst a) < i (fst b)).
Proof.
  unfold coord_ordering_by_column_t. compare_cases; split; intros Hcmp;
    try reflexivity; try discriminate Hcmp; lia.
Qed.

Lemma equivalent_by_row {D : Type} (a b : coord_t D) :
  equivalent coord_ordering_by_row_t a b <-> fst a = fst b.
Proof.
  unfold equivalent. rewrite <- !not_true_iff_false, !by_row_spec.
  rewrite (idx_eta (fst a)), (idx_eta (fst b)). unfold idx_t.lex. cbn.
  split.
  - intros [Hab Hba]. f_equal; lia.
  - intros H. inversion H. lia.
Qed.

Lemma equivalent_by_column {D : Type} (a b : coord_t D) :
  equivalent coord_ordering_by_column_t a b <-> fst a = fst b.
Proof.
  unfold equivalent. rewrite <- !not_true_iff_false, !by_column_spec.
  rewrite (idx_eta (fst a)), (idx_eta (fst b)). cbn.
  split.
  - intros [Hab Hba]. f_equal; lia.
  - intros H. inversion H. lia.
Qed.

(** X5. [coord_ordering_by_row_t] is a strict weak ordering, as
    [std::sort] requires of its comparison; it orders by row and then by
    column, never looks at the value, and leaves two entries unordered
    exactly when they are at the same position. *)
Theorem coord_ordering_by_row_strict_weak (D : Type) :
  strict_weak_ordering (@coord_ordering_by_row_t D) /\
  (forall a b : coord_t D,
      coord_ordering_by_row_t a b = true <->
      i (fst a) < i (fst b) \/ (i (fst a) = i (fst b) /\ j (fst a) < j (fst b))) /\
  (forall a b : coord_t D,
      equivalent coord_ordering_by_row_t a b <-> fst a = fst b).
Proof.
  split; [| split].
  - split; [| split].
    + intros x. apply not_true_is_false. rewrite by_row_spec.
      apply idx_lex_irrefl.
    + intros x y z. rewrite !by_row_spec. apply idx_lex_trans.
    + intros x y z. rewrite !equivalent_by_row. congruence.
  - intros a b. apply by_row_spec.
  - intros a b. apply equivalent_by_row.
Qed.

(** X6. [coord_ordering_by_column_t] is a strict weak ordering by column
    and then by row: it is the row ordering of the transposed entries, and
    two entries are unordered exactly when they are at the same
    position. *)
Theorem coord_ordering_by_column_strict_weak (D : Type) :
  strict_weak_ordering (@coord_ordering_by_column_t D) /\
  (forall a b : coord_t D,
      coord_ordering_by_column_t a b
      = coord_ordering_by_row_t (transposed a) (transposed b)) /\
  (forall a b : coord_t D,
      equivalent coord_ordering_by_column_t a b <-> fst a = fst b).
Proof.
  split; [| split].
  - split; [| split].
    + intros x. apply not_true_is_false. rewrite by_column_spec. lia.
    + intros x y z. rewrite !by_column_spec. lia.
    + intros x y z. rewrite !equivalent_by_column. congruence.
  - intros a b. reflexivity.
  - intros a b. apply equivalent_by_column.
Qed.

(** X7. Among the entries of one row, which [coord_row_equal_to_t]
    selects, the row ordering compares the columns; among the entries of
    one column, which [coord_column_equal_to_t] selects, the column
    ordering compares the rows. *)
Theorem coord_ordering_within_line {D : Type} (k : Z) (a b : coord_t D) :
  (coord_row_equal_to_t k a = true -> coord_row_equal_to_t k b = true ->
   coord_ordering_by_row_t a b = (j (fst a) <? j (fst b))) /\
  (coord_column_equal_to_t k a = true -> coord_column_equal_to_t k b = true ->
   coord_ordering_by_column_t a b = (i (fst a) <? i (fst b))).
Proof.
  unfold coord_row_equal_to_t, coord_column_equal_to_t,
    coord_ordering_by_row_t, coord_ordering_by_column_t, idx_t.lt.
  split; intros Ha Hb; apply Z.eqb_eq in Ha, Hb;
    compare_cases; try reflexivity; lia.
Qed.

Lemma coord_ordering_within_line_witness :
  coord_ordering_by_row_t (Idx 4 1, 10) (Idx 4 6, 20) = (1 <? 6).
Proof.
  destruct (coord_ordering_within_line 4 (Idx 4 1, 10) (Idx 4 6, 20))
    as [H _].
  apply H; reflexivity.
Defined.

(** ** Vector transformations, one by one *)

Lemma length_unique_from prev v :
  (length (Std.unique_from prev v) <= length v)%nat.
Proof.
  revert prev. induction v as [| y v IH]; intros prev; cbn; [lia |].
  destruct (prev =? y); cbn; [specialize (IH prev) | specialize (IH y)]; lia.
Qed.

Lemma length_unique v : (length (Std.unique v) <= length v)%nat.
Proof.
  destruct v as [| y v]; cbn; [lia |].
  pose proof (length_unique_from y v). lia.
Qed.

Lemma sort_unique_fixed v :
  strictly_ascending v -> Std.unique (Std.sort v) = v.
Proof.
  intros Hv. apply strictly_ascending_ext; [| exact Hv |].
  - apply unique_ascending, sort_sorted.
  - intros x. rewrite elem_of_unique, elem_of_sort. reflexivity.
Qed.

(** X8. [vector_sort_unique] yields the strictly ascending vector of the
    elements of its input, never longer than the input; it ignores the
    pivot, leaves a strictly ascending vector as it is, and a second
    application changes nothing. *)
Theorem vector_sort_unique_canonical (v : list Z) (e e' : Z) :
  strictly_ascending (vector_sort_unique v e) /\
  (forall x, x ∈ vector_sort_unique v e <-> x ∈ v) /\
  (length (vector_sort_unique v e) <= length v)%nat /\
  vector_sort_unique (vector_sort_unique v e) e' = vector_sort_unique v e /\
  (strictly_ascending v -> vector_sort_unique v e = v).
Proof.
  split; [apply sort_unique_ascending |].
  split; [intros x; apply elem_of_sort_unique |].
  split.
  { unfold vector_sort_unique.
    pose proof (length_unique (Std.sort v)) as Hlen.
    rewrite (Permutation_length (sort_permutation v)) in Hlen. exact Hlen. }
  split.
  - unfold vector_sort_unique. apply sort_unique_fixed.
    apply unique_ascending, sort_sorted.
  - apply sort_unique_fixed.
Qed.

Lemma vector_sort_unique_canonical_witness :
  vector_sort_unique [2; 4; 9] 0 = [2; 4; 9].
Proof.
  destruct (vector_sort_unique_canonical [2; 4; 9] 0 0) as (_ & _ & _ & _ & H).
  apply H. unfold strictly_ascending. repeat constructor.
Defined.

Lemma remove_absent v e :
  Int.to_size_t e ∉ v -> vector_element_remove v e = v.
Proof.
  unfold vector_element_remove, Std.remove_if, equal_to.
  induction v as [| y v IH]; intros Hnot; cbn; [reflexivity |].
  rewrite not_elem_of_cons in Hnot. destruct Hnot as [Hne Hnot].
  destruct (Z.eqb_spec (Int.to_size_t e) y) as [Heq | _]; [contradiction |].
  cbn. f_equal. apply IH, Hnot.
Qed.

Lemma remove_sublist v e : vector_element_remove v e `sublist_of` v.
Proof.
  unfold vector_element_remove, Std.remove_if.
  induction v as [| y v IH]; cbn; [constructor |].
  destruct (negb (equal_to (Int.to_size_t e) y)); constructor; exact IH.
Qed.

Lemma remove_length v e :
  (length (vector_element_remove v e)
   + count_occ Z.eq_dec v (Int.to_size_t e) = length v)%nat.
Proof.
  unfold vector_element_remove, Std.remove_if, equal_to.
  induction v as [| y v IH]; cbn; [reflexivity |].
  destruct (Z.eqb_spec (Int.to_size_t e) y) as [Heq | Hne];
    destruct (Z.eq_dec y (Int.to_size_t e)) as [Heq' | Hne'];
    cbn; try lia; congruence.
Qed.

Lemma remove_count v e x :
  x <> Int.to_size_t e ->
  count_occ Z.eq_dec (vector_element_remove v e) x = count_occ Z.eq_dec v x.
Proof.
  intros Hx. unfold vector_element_remove, Std.remove_if, equal_to.
  induction v as [| y v IH]; cbn; [reflexivity |].
  destruct (Z.eqb_spec (Int.to_size_t e) y) as [Heq | Hne]; cbn;
    destruct (Z.eq_dec y x) as [Hyx | Hyx]; try lia; congruence.
Qed.

(** X9. [vector_element_remove] deletes every occurrence of the pivot and
    nothing else: the pivot is gone, every other value keeps its number of
    occurrences, the elements kept stay in their order, the length drops
    by the number of occurrences of the pivot, a vector without the pivot
    is left as it is, and a second removal changes nothing. *)
Theorem vector_element_remove_spec (v : list Z) (e : Z) :
  (Int.to_size_t e ∉ vector_element_remove v e) /\
  (forall x, x <> Int.to_size_t e ->
             count_occ Z.eq_dec (vector_element_remove v e) x
             = count_occ Z.eq_dec v x) /\
  vector_element_remove v e `sublist_of` v /\
  (length (vector_element_remove v e)
   + count_occ Z.eq_dec v (Int.to_size_t e) = length v)%nat /\
  (Int.to_size_t e ∉ v -> vector_element_remove v e = v) /\
  vector_element_remove (vector_element_remove v e) e
  = vector_element_remove v e.
Proof.
  assert (Hgone : Int.to_size_t e ∉ vector_element_remove v e).
  { rewrite elem_of_remove. tauto. }
  split; [exact Hgone |].
  split; [intros x; apply remove_count |].
  split; [apply remove_sublist |].
  split; [apply remove_length |].
  split; [apply remove_absent |].
  apply remove_absent, Hgone.
Qed.

Lemma vector_element_remove_spec_witness :
  vector_element_remove [4; 8; 6] 5 = [4; 8; 6].
Proof.
  destruct (vector_element_remove_spec [4; 8; 6] 5) as (_ & _ & _ & _ & H & _).
  apply H. vm_compute. intros Hin.
  repeat (apply elem_of_cons in Hin as [Hin | Hin]; [discriminate Hin |]).
  inversion Hin.
Defined.

(** X10. Pushing the pivot in front or at the back and removing it again
    gives what removing it from the vector gives, which is the vector
    itself when the pivot was not in it. *)
Theorem push_then_remove (v : list Z) (e : Z) :
  vector_element_remove (vector_element_push_front v e) e
  = vector_element_remove v e /\
  vector_element_remove (vector_element_push_back v e) e
  = vector_element_remove v e /\
  (Int.to_size_t e ∉ v ->
   vector_element_remove (vector_element_push_front v e) e = v /\
   vector_element_remove (vector_element_push_back v e) e = v).
Proof.
  assert (Hfront : vector_element_remove (vector_element_push_front v e) e
                   = vector_element_remove v e).
  { unfold vector_element_remove, vector_element_push_front, Std.remove_if,
      equal_to. cbn. rewrite Z.eqb_refl. reflexivity. }
  assert (Hback : vector_element_remove (vector_element_push_back v e) e
                  = vector_element_remove v e).
  { unfold vector_element_remove, vector_element_push_back, Std.remove_if,
      equal_to. rewrite List.filter_app. cbn. rewrite Z.eqb_refl. cbn.
    apply app_nil_r. }
  split; [exact Hfront |]. split; [exact Hback |].
  intros Hnot. rewrite Hfront, Hback, (remove_absent v e Hnot). split; reflexivity.
Qed.

Lemma push_then_remove_witness :
  vector_element_remove (vector_element_push_back [4; 8; 6] 5) 5 = [4; 8; 6].
Proof.
  destruct (push_then_remove [4; 8; 6] 5) as (_ & _ & H).
  apply H. vm_compute. intros Hin.
  repeat (apply elem_of_cons in Hin as [Hin | Hin]; [discriminate Hin |]).
  inversion Hin.
Defined.

(** ** The two pipelines together *)

Lemma filter_strictly_ascending (f : Z -> bool) v :
  strictly_ascending v -> strictly_ascending (List.filter f v).
Proof.
  unfold strictly_ascending. induction 1 as [| x v Hs IH Hx]; cbn.
  - constructor.
  - destruct (f x); [| exact IH].
    constructor; [exact IH |].
    rewrite Forall_forall in *. intros y Hy. apply Hx.
    rewrite list_elem_of_In in *. apply List.filter_In in Hy. tauto.
Qed.

Lemma diagonal_tail_ascending v e :
  strictly_ascending (tl (vector_sorted_diagonal_first_t v e)).
Proof.
  rewrite vector_sorted_diagonal_first_t_unfold. cbn [tl].
  apply unique_ascending, sort_sorted.
Qed.

Lemma elem_of_diagonal_tail v e x :
  x ∈ tl (vector_sorted_diagonal_first_t v e) <->
  x ∈ v /\ x <> Int.to_size_t e.
Proof.
  rewrite vector_sorted_diagonal_first_t_unfold. cbn [tl].
  rewrite elem_of_unique, elem_of_sort. apply elem_of_remove.
Qed.

Lemma diagonal_first_cons v e :
  vector_sorted_diagonal_first_t v e
  = Int.to_size_t e :: tl (vector_sorted_diagonal_first_t v e).
Proof. reflexivity. Qed.

(** X11. The sorted pipeline leaves a strictly ascending vector that
    already holds the pivot as it is. *)
Theorem vector_sorted_t_present (v : list Z) (e : Z) :
  strictly_ascending v -> Int.to_size_t e ∈ v -> vector_sorted_t v e = v.
Proof.
  intros Hv Hin. apply strictly_ascending_ext.
  - apply vector_sorted_t_ascending.
  - exact Hv.
  - intros x. rewrite elem_of_vector_sorted_t. split; [| tauto].
    intros [Hx | ->]; assumption.
Qed.

Lemma vector_sorted_t_present_witness :
  vector_sorted_t [3; 5; 9] 5 = [3; 5; 9].
Proof.
  apply vector_sorted_t_present.
  - unfold strictly_ascending. repeat constructor.
  - vm_compute. apply list_elem_of_further, list_elem_of_here.
Defined.

(** X12. Both pipelines depend on the elements of the input only, not on
    their order or on how often they occur. *)
Theorem pipelines_depend_on_elements (v w : list Z) (e : Z) :
  (forall x, x ∈ v <-> x ∈ w) ->
  vector_sorted_t v e = vector_sorted_t w e /\
  vector_sorted_diagonal_first_t v e = vector_sorted_diagonal_first_t w e.
Proof.
  intros Hvw. split.
  - apply strictly_ascending_ext; try apply vector_sorted_t_ascending.
    intros x. rewrite !elem_of_vector_sorted_t, Hvw. reflexivity.
  - rewrite (diagonal_first_cons v), (diagonal_first_cons w). f_equal.
    apply strictly_ascending_ext; try apply diagonal_tail_ascending.
    intros x. rewrite !elem_of_diagonal_tail, Hvw. reflexivity.
Qed.

Lemma pipelines_depend_on_elements_witness :
  vector_sorted_t [7; 2; 7] 4 = vector_sorted_t [2; 7] 4 /\
  vector_sorted_diagonal_first_t [7; 2; 7] 4
  = vector_sorted_diagonal_first_t [2; 7] 4.
Proof.
  apply pipelines_depend_on_elements.
  intros x. rewrite !elem_of_cons, !elem_of_nil. tauto.
Defined.

(** X13. The sorted-diagonal-first pipeline is the sorted pipeline with
    the pivot moved to the front: sorting its result gives the result of
    the sorted pipeline, its tail is the result of the sorted pipeline
    without the pivot, and a second application with the same pivot
    changes nothing. *)
Theorem pipelines_agree (v : list Z) (e e' : Z) :
  vector_sort_unique (vector_sorted_diagonal_first_t v e) e'
  = vector_sorted_t v e /\
  tl (vector_sorted_diagonal_first_t v e)
  = vector_element_remove (vector_sorted_t v e) e /\
  vector_sorted_diagonal_first_t (vector_sorted_diagonal_first_t v e) e
  = vector_sorted_diagonal_first_t v e.
Proof.
  split; [| split].
  - apply strictly_ascending_ext.
    + apply sort_unique_ascending.
    + apply vector_sorted_t_ascending.
    + intros x.
      rewrite elem_of_sort_unique, elem_of_vector_sorted_t,
        diagonal_first_cons, elem_of_cons, elem_of_diagonal_tail.
      destruct (Z.eq_dec x (Int.to_size_t e)); tauto.
  - apply strictly_ascending_ext.
    + apply diagonal_tail_ascending.
    + apply filter_strictly_ascending, vector_sorted_t_ascending.
    + intros x.
      rewrite elem_of_diagonal_tail, elem_of_remove, elem_of_vector_sorted_t.
      tauto.
  - rewrite (diagonal_first_cons (vector_sorted_diagonal_first_t v e)).
    rewrite (diagonal_first_cons v e) at 2. f_equal.
    apply strictly_ascending_ext; try apply diagonal_tail_ascending.
    intros x.
    rewrite (elem_of_diagonal_tail (vector_sorted_diagonal_first_t v e) e x).
    rewrite (elem_of_diagonal_tail v e x).
    split; intros [Hin Hne]; (split; [| exact Hne]).
    + rewrite diagonal_first_cons in Hin.
      apply elem_of_cons in Hin as [Heq | Hin]; [contradiction |].
      apply elem_of_diagonal_tail in Hin. tauto.
    + rewrite diagonal_first_cons. apply list_elem_of_further.
      apply elem_of_diagonal_tail. tauto.
Qed.

(** ** Index base conversion *)




(** ** File extensions *)

Lemma find_last_of_absent s c :
  has_char c s = false -> Std.find_last_of s c = None.
Proof.
  induction s as [| x s IH]; cbn; [reflexivity |].
  intros H. apply orb_false_iff in H as [Hx Hs].
  rewrite (IH Hs), Hx. reflexivity.
Qed.

Lemma find_last_of_present s c :
  has_char c s = true -> exists p, Std.find_last_of s c = Some p.
Proof.
  induction s as [| x s IH]; cbn; [discriminate |].
  intros H. destruct (Std.find_last_of s c) as [p |] eqn:Hs.
  - exists (S p). reflexivity.
  - destruct (Ascii.eqb x c) eqn:Hx; [exists O; reflexivity |].
    cbn in H. destruct (IH H) as [p Hp]. discriminate Hp.
Qed.

Lemma find_last_of_suffix base c suffix :
  has_char c suffix = false ->
  Std.find_last_of (String.append base (String c suffix)) c
  = Some (String.length base).
Proof.
  intros Hs. induction base as [| x base IH]; cbn.
  - rewrite (find_last_of_absent suffix c Hs), Ascii.eqb_refl. reflexivity.
  - rewrite IH. reflexivity.
Qed.

Lemma string_drop_prefix base s :
  Std.string_drop (String.length base) (String.append base s) = s.
Proof. induction base as [| x base IH]; cbn; [reflexivity | exact IH]. Qed.

Lemma string_length_append base s :
  String.length (String.append base s)
  = (String.length base + String.length s)%nat.
Proof. induction base as [| x base IH]; cbn; [reflexivity | rewrite IH; reflexivity]. Qed.

(** X15. The extension of a file name is what follows its last dot, the
    dot included: for a name [base.suffix] whose suffix holds no dot it is
    [.suffix], whatever dots the base holds. *)
Theorem extension_after_last_dot (base suffix : string) :
  has_char "."%char suffix = false ->
  extension (String.append base (String "."%char suffix))
  = Returned (String "."%char suffix).
Proof.
  intros Hs. unfold extension, Std.substr.
  rewrite (find_last_of_suffix base "."%char suffix Hs).
  rewrite string_length_append, string_drop_prefix.
  destruct (Nat.leb_spec (String.length base)
              (String.length base + String.length (String "."%char suffix)))
    as [_ | Hlt]; [reflexivity | lia].
Qed.

Lemma extension_after_last_dot_witness :
  extension "run.2/mesh.v1.csr"%string = Returned ".csr"%string.
Proof.
  apply (extension_after_last_dot "run.2/mesh.v1"%string "csr"%string).
  reflexivity.
Defined.

Lemma extension_without_dot fname :
  has_char "."%char fname = false -> extension fname = Threw std_out_of_range.
Proof.
  intros H. unfold extension. rewrite (find_last_of_absent _ _ H). reflexivity.
Qed.

(** ** The generic readers, case by case *)

Section GenericReadCases.

Variables double T : Type.
Variable storage_conversion_needed : bool.
Variable storage_conversion_t : double -> T.
Variable T_default : T.
Variable as_double : T -> double.
Variable of_double : double -> T.
Variables row_max_size grid_max_size : Z.
Variable backend : backends double.

(** X16. For a file name without a dot, [read_dense] and [read_sparse]
    throw [std::out_of_range], from [substr], for every storage type and
    whatever the backends are: not the error of an undetected format, and
    no reader decides the outcome. *)
Theorem read_without_dot fname roworiented base size ad as_ ia ja :
  has_char "."%char fname = false ->
  read_dense double T storage_conversion_needed storage_conversion_t
    T_default as_double of_double row_max_size grid_max_size backend
    fname roworiented size ad = Threw std_out_of_range /\
  read_sparse double T storage_conversion_needed storage_conversion_t
    T_default as_double of_double row_max_size backend
    fname roworiented base size as_ ia ja = Threw std_out_of_range.
Proof.
  intros H. unfold read_dense, read_sparse.
  rewrite (extension_without_dot fname H). split; reflexivity.
Qed.

(** X17. For a file name whose extension is none of [.mtx], [.rua] and
    [.csr], compared as they are written, [read_dense] and [read_sparse]
    throw the runtime error that names the file, for every storage type
    and whatever the backends are. *)
Theorem read_unrecognized fname ext roworiented base size ad as_ ia ja :
  extension fname = Returned ext ->
  ext <> ".mtx"%string -> ext <> ".rua"%string -> ext <> ".csr"%string ->
  read_dense double T storage_conversion_needed storage_conversion_t
    T_default as_double of_double row_max_size grid_max_size backend
    fname roworiented size ad
  = Threw (std_runtime_error (file_format_not_detected fname)) /\
  read_sparse double T storage_conversion_needed storage_conversion_t
    T_default as_double of_double row_max_size backend
    fname roworiented base size as_ ia ja
  = Threw (std_runtime_error (file_format_not_detected fname)).
Proof.
  intros Hext Hm Hr Hc. unfold read_dense, read_sparse. rewrite Hext. cbn.
  apply String.eqb_neq in Hm, Hr, Hc. rewrite Hm, Hr, Hc. split; reflexivity.
Qed.

End GenericReadCases.

Lemma read_without_dot_witness :
  read_dense Z Z false id 0 id id (2 ^ 32) (2 ^ 32) Cases.grid_backends
    "mesh_mtx"%string true idx_t.default [] = Threw std_out_of_range /\
  read_sparse Z Z false id 0 id id (2 ^ 32) Cases.grid_backends
    "mesh_mtx"%string true 0 idx_t.default [] [] [] = Threw std_out_of_range.
Proof.
  apply (read_without_dot Z Z false id 0 id id (2 ^ 32) (2 ^ 32)
           Cases.grid_backends "mesh_mtx"%string).
  reflexivity.
Defined.

Lemma read_unrecognized_witness :
  read_dense Z Z false id 0 id id (2 ^ 32) (2 ^ 32) Cases.grid_backends
    "mesh.MTX"%string true idx_t.default []
  = Threw (std_runtime_error (file_format_not_detected "mesh.MTX"%string)) /\
  read_sparse Z Z false id 0 id id (2 ^ 32) Cases.grid_backends
    "mesh.MTX"%string true 0 idx_t.default [] [] []
  = Threw (std_runtime_error (file_format_not_detected "mesh.MTX"%string)).
Proof.
  apply (read_unrecognized Z Z false id 0 id id (2 ^ 32) (2 ^ 32)
           Cases.grid_backends "mesh.MTX"%string ".MTX"%string);
    [reflexivity | discriminate | discriminate | discriminate].
Defined.

(** ** Dispatch and storage conversion *)

Lemma vector_fill_within {E : Type} (max_size n : Z) (x : E) :
  n <= max_size ->
  Std.vector_fill max_size n x = Returned (repeat x (Z.to_nat n)).
Proof.
  intros Hn. unfold Std.vector_fill.
  destruct (Z.ltb_spec max_size n); [lia | reflexivity].
Qed.


Lemma transform_exact {A B : Type} (f : A -> B) (src : list A) (d : B) :
  Std.transform f src (repeat d (length src)) = Returned (List.map f src).
Proof.
  unfold Std.transform. rewrite repeat_length, Nat.leb_refl.
  rewrite drop_ge by (rewrite repeat_length; lia).
  rewrite app_nil_r. reflexivity.
Qed.

Section ConversionFacts.

Variables double T : Type.
Variable storage_conversion_t : double -> T.
Variable T_default : T.
Variable as_double : T -> double.
Variable of_double : double -> T.
Variables row_max_size grid_max_size : Z.
Variable backend : backends double.

Lemma convert_rows_exact (grid : list (list double)) (n m : nat) :
  length grid = n -> Forall (fun row => length row = m) grid ->
  convert_rows double T storage_conversion_t grid (repeat (repeat T_default m) n)
  = Returned (List.map (List.map storage_conversion_t) grid).
Proof.
  revert n. induction grid as [| r grid IH]; intros n Hn Hrows.
  - cbn in Hn. subst n. reflexivity.
  - destruct n as [| n]; [discriminate Hn |]. cbn in Hn.
    apply Forall_cons in Hrows as [Hr Hrows]. cbn [repeat convert_rows].
    rewrite <- Hr at 1. rewrite transform_exact. cbn.
    rewrite (IH n) by (try lia; assumption). reflexivity.
Qed.

Lemma convert_rows_overlong (grid : list (list double)) (a : list (list T)) :
  (length a < length grid)%nat ->
  convert_rows double T storage_conversion_t grid a = Undefined.
Proof.
  revert a. induction grid as [| r grid IH]; intros a Hlen; cbn in Hlen; [lia |].
  destruct a as [| d a]; [reflexivity |]. cbn in Hlen. cbn [convert_rows].
  unfold Std.transform. destruct (length r <=? length d)%nat;
    unfold mbind, outcome_bind; [| reflexivity].
  rewrite (IH a) by lia. reflexivity.
Qed.

(** The chain of tests on the extension, for a reader it reaches. *)
Lemma dense_chain fname ext rd roworiented size storage :
  dense_backend_for backend ext = Some rd ->
  (if String.eqb ext ".mtx" then
     Returned (MatrixMarket_read_dense backend fname roworiented size storage)
   else if String.eqb ext ".rua" then
     Returned (HarwellBoeing_read_dense backend fname roworiented size storage)
   else if String.eqb ext ".csr" then
     Returned (CSR_read_dense backend fname roworiented size storage)
   else Threw (std_runtime_error (file_format_not_detected fname)))
  = Returned (rd fname roworiented size storage).
Proof.
  unfold dense_backend_for. intros Hrd.
  destruct (String.eqb ext ".mtx");
    [| destruct (String.eqb ext ".rua"); [| destruct (String.eqb ext ".csr")]];
    inversion Hrd; reflexivity.
Qed.

Lemma sparse_chain fname ext rd roworiented base size storage ia ja :
  sparse_backend_for backend ext = Some rd ->
  (if String.eqb ext ".mtx" then
     Returned (MatrixMarket_read_sparse backend fname roworiented base size storage ia ja)
   else if String.eqb ext ".rua" then
     Returned (HarwellBoeing_read_sparse backend fname roworiented base size storage ia ja)
   else if String.eqb ext ".csr" then
     Returned (CSR_read_sparse backend fname roworiented base size storage ia ja)
   else Threw (std_runtime_error (file_format_not_detected fname)))
  = Returned (rd fname roworiented base size storage ia ja).
Proof.
  unfold sparse_backend_for. intros Hrd.
  destruct (String.eqb ext ".mtx");
    [| destruct (String.eqb ext ".rua"); [| destruct (String.eqb ext ".csr")]];
    inversion Hrd; reflexivity.
Qed.

(** X18. Without storage conversion, [read_dense] and [read_sparse] call
    the reader of the file's extension ([.mtx] MatrixMarket, [.rua]
    HarwellBoeing, [.csr] CSR) on the caller's own buffers, and hand back
    the size and the data that reader left. *)
Theorem read_dispatches_on_extension fname ext roworiented base size ad as_ ia ja :
  extension fname = Returned ext ->
  (forall rd, dense_backend_for backend ext = Some rd ->
     let r := rd fname roworiented size (List.map (List.map as_double) ad) in
     read_dense double T false storage_conversion_t T_default as_double
       of_double row_max_size grid_max_size backend fname roworiented size ad
     = Returned (true, dense_size r,
                 List.map (List.map of_double) (dense_a r))) /\
  (forall rd, sparse_backend_for backend ext = Some rd ->
     let r := rd fname roworiented base size (List.map as_double as_) ia ja in
     read_sparse double T false storage_conversion_t T_default as_double
       of_double row_max_size backend fname roworiented base size as_ ia ja
     = Returned (true, sparse_size r, List.map of_double (sparse_a r),
                 sparse_ia r, sparse_ja r)) /\
  dense_backend_for backend ".mtx" = Some (MatrixMarket_read_dense backend) /\
  dense_backend_for backend ".rua" = Some (HarwellBoeing_read_dense backend) /\
  dense_backend_for backend ".csr" = Some (CSR_read_dense backend) /\
  sparse_backend_for backend ".mtx" = Some (MatrixMarket_read_sparse backend) /\
  sparse_backend_for backend ".rua" = Some (HarwellBoeing_read_sparse backend) /\
  sparse_backend_for backend ".csr" = Some (CSR_read_sparse backend).
Proof.
  intros Hext. split; [| split; [| repeat split]].
  - intros rd Hrd. cbv zeta. unfold read_dense. rewrite Hext. cbn.
    rewrite (dense_chain fname ext rd roworiented size _ Hrd). reflexivity.
  - intros rd Hrd. cbv zeta. unfold read_sparse. rewrite Hext. cbn.
    rewrite (sparse_chain fname ext rd roworiented base size _ ia ja Hrd).
    reflexivity.
Qed.

(** X19. With storage conversion, [read_dense] calls the reader of the
    file's extension on an empty buffer of its own; when the grid the
    reader leaves has the shape its size announces for the orientation,
    within what a vector can hold, the caller gets every element of that
    grid converted to [T], whatever the caller's buffer held. *)
Theorem read_dense_converts fname ext rd roworiented size ad :
  extension fname = Returned ext ->
  dense_backend_for backend ext = Some rd ->
  let r := rd fname roworiented size [] in
  inner_extent roworiented (dense_size r) <= row_max_size ->
  outer_extent roworiented (dense_size r) <= grid_max_size ->
  grid_shape roworiented (dense_size r) (dense_a r) ->
  read_dense double T true storage_conversion_t T_default as_double
    of_double row_max_size grid_max_size backend fname roworiented size ad
  = Returned (true, dense_size r,
              List.map (List.map storage_conversion_t) (dense_a r)).
Proof.
  intros Hext Hrd r Hin Hout [Hrows Hcols].
  unfold inner_extent, outer_extent in *.
  pose proof (dense_chain fname ext rd roworiented size [] Hrd) as Hsel.
  fold r in Hsel.
  unfold read_dense. rewrite Hext. cbn. rewrite Hsel. cbn.
  rewrite (vector_fill_within _ _ _ Hin). cbn.
  rewrite (vector_fill_within _ _ _ Hout). cbn.
  rewrite (convert_rows_exact (dense_a r) _ _ Hrows Hcols). reflexivity.
Qed.

(** X20. With storage conversion, a grid of more rows than the size
    announces makes [read_dense] write past the end of the caller's
    buffer. *)
Theorem read_dense_overlong_grid fname ext rd roworiented size ad :
  extension fname = Returned ext ->
  dense_backend_for backend ext = Some rd ->
  let r := rd fname roworiented size [] in
  inner_extent roworiented (dense_size r) <= row_max_size ->
  outer_extent roworiented (dense_size r) <= grid_max_size ->
  (Z.to_nat (outer_extent roworiented (dense_size r)) < length (dense_a r))%nat ->
  read_dense double T true storage_conversion_t T_default as_double
    of_double row_max_size grid_max_size backend fname roworiented size ad
  = Undefined.
Proof.
  intros Hext Hrd r Hin Hout Hlong.
  unfold inner_extent, outer_extent in *.
  pose proof (dense_chain fname ext rd roworiented size [] Hrd) as Hsel.
  fold r in Hsel.
  unfold read_dense. rewrite Hext. cbn. rewrite Hsel. cbn.
  rewrite (vector_fill_within _ _ _ Hin). cbn.
  rewrite (vector_fill_within _ _ _ Hout). cbn.
  rewrite convert_rows_overlong; [reflexivity |].
  rewrite repeat_length. exact Hlong.
Qed.


(** X22. With storage conversion, [read_sparse] calls the reader of the
    file's extension on an empty buffer of its own and gives the caller
    every value converted to [T], in the reader's order, with the size and
    the index arrays as the reader left them. *)
Theorem read_sparse_converts fname ext rd roworiented base size as_ ia ja :
  extension fname = Returned ext ->
  sparse_backend_for backend ext = Some rd ->
  let r := rd fname roworiented base size [] ia ja in
  Z.of_nat (length (sparse_a r)) <= row_max_size ->
  read_sparse double T true storage_conversion_t T_default as_double
    of_double row_max_size backend fname roworiented base size as_ ia ja
  = Returned (true, sparse_size r,
              List.map storage_conversion_t (sparse_a r),
              sparse_ia r, sparse_ja r).
Proof.
  intros Hext Hrd r Hlen.
  pose proof (sparse_chain fname ext rd roworiented base size [] ia ja Hrd)
    as Hsel.
  fold r in Hsel.
  unfold read_sparse. rewrite Hext. cbn. rewrite Hsel. cbn.
  rewrite (vector_fill_within _ _ _ Hlen). cbn.
  rewrite Nat2Z.id, transform_exact. reflexivity.
Qed.

End ConversionFacts.

Lemma read_dispatches_on_extension_witness :
  Cases.read_dense_same Cases.grid_backends "m.rua"%string false
    idx_t.default []
  = Returned (true, Idx 2 3, [[1; 0]; [0; 3]; [2; 0]]).
Proof.
  destruct (read_dispatches_on_extension Z Z id 0 id id (2 ^ 32) (2 ^ 32)
              Cases.grid_backends "m.rua"%string ".rua"%string false 0
              idx_t.default [] [] [] [] eq_refl) as (Hdense & _).
  exact (Hdense Cases.grid_dense eq_refl).
Defined.

Lemma read_dense_converts_witness :
  Cases.read_dense_bool Cases.grid_backends "m.mtx"%string true
    idx_t.default [[true]]
  = Returned (true, Idx 2 3, [[true; false; true]; [false; true; false]]).
Proof.
  apply (read_dense_converts Z bool Cases.to_bool false (fun _ => 0)
           Cases.to_bool (2 ^ 32) (2 ^ 32) Cases.grid_backends
           "m.mtx"%string ".mtx"%string Cases.grid_dense true idx_t.default
           [[true]]).
  - reflexivity.
  - reflexivity.
  - vm_compute. discriminate.
  - vm_compute. discriminate.
  - split; [reflexivity | repeat constructor].
Defined.

Lemma read_dense_overlong_grid_witness :
  Cases.read_dense_bool Cases.overlong_backends "m.csr"%string true
    idx_t.default [] = Undefined.
Proof.
  apply (read_dense_overlong_grid Z bool Cases.to_bool false (fun _ => 0)
           Cases.to_bool (2 ^ 32) (2 ^ 32) Cases.overlong_backends
           "m.csr"%string ".csr"%string Cases.overlong_dense true
           idx_t.default []).
  - reflexivity.
  - reflexivity.
  - vm_compute. discriminate.
  - vm_compute. discriminate.
  - vm_compute. lia.
Defined.


Lemma read_sparse_converts_witness :
  Cases.read_sparse_bool Cases.grid_backends "m.csr"%string true 1
    idx_t.default [] [] []
  = Returned (true, Idx 2 3, [true; true; true], [1; 1; 2], [1; 3; 2]).
Proof.
  apply (read_sparse_converts Z bool Cases.to_bool false (fun _ => 0)
           Cases.to_bool (2 ^ 32) Cases.grid_backends
           "m.csr"%string ".csr"%string Cases.grid_sparse true 1
           idx_t.default [] [] []).
  - reflexivity.
  - reflexivity.
  - vm_compute. discriminate.
Defined.

(** ** [LAPACK::solve], case by case *)

(** X23. The message [solve] assembles tells the status apart: two
    statuses give the same message only when they are the same status. The
    dimension error is the message of -17 alone, the precision error that
    of -42 alone; every other negative status names an invalid argument and
    every positive one a zero pivot. *)
Theorem what_of_injective (err err' : Z) :
  (what_of err = what_of err' <-> err = err') /\
  (what_of err = size_must_be_square <-> err = -17) /\
  (what_of err = precision_not_implemented <-> err = -42) /\
  (0 < err -> what_of err = singular err) /\
  (err < 0 -> err <> -17 -> err <> -42 -> what_of err = invalid_argument err).
Proof.
  unfold what_of. repeat split; compare_cases;
    try intros Heq; try intros Hb Hc; try reflexivity; try lia;
    try discriminate Heq; try (inversion Heq; lia); try congruence.
Qed.

Section SolveCases.

Variable T : Type.
Variable typeid_T : type_id.
Variables dgesv_ sgesv_ : gesv_t T.
Variable size : LAPACK T -> Z -> Z.
Variable cleared_size : idx_t -> idx_t.

(** X24. [solve] returns exactly when the row count is not negative as an
    [int], the matrix is square, [T] is [double] or [float], and the
    native routine of that precision reports status 0. *)
Theorem solve_returns_iff (s : LAPACK T) :
  fst (fst (solve typeid_T dgesv_ sgesv_ size cleared_size s)) = Returned () <->
  0 <= Int.to_int (size s 0) /\
  idx_t.is_square_size (m_size (m_A s)) = true /\
  exists f r,
    selected typeid_T dgesv_ sgesv_ size s
      (repeat 0 (Z.to_nat (Int.to_int (size s 0)))) f r /\
    out_info r = 0.
Proof.
  unfold solve.
  destruct (Z.lt_ge_cases (Int.to_int (size s 0)) 0) as [Hneg | Hpos].
  - rewrite (vector_int_negative _ (to_int_range _) Hneg). cbn.
    split; [discriminate | lia].
  - rewrite (vector_int_nonneg _ (to_int_range _) Hpos).
    unfold dispatch, selected.
    destruct (idx_t.is_square_size (m_size (m_A s))); cbn.
    + destruct typeid_T; cbn.
      * destruct (Z.eqb_spec (out_info (dgesv_ (Int.to_int (size s 0))
                    (Int.to_int (size s 2)) (a (m_A s)) (Int.to_int (size s 0))
                    (repeat 0 (Z.to_nat (Int.to_int (size s 0)))) (a (m_b s))
                    (Int.to_int (size s 0)))) 0) as [Hinfo | Hinfo]; cbn.
        -- split; [| reflexivity]. intros _. repeat split; try assumption.
           eexists dgesv, _. split; [left; repeat split | exact Hinfo].
        -- split; [discriminate |].
           intros (_ & _ & f & r & [(_ & _ & ->) | (Habs & _)] & Hr);
             [contradiction | discriminate Habs].
      * destruct (Z.eqb_spec (out_info (sgesv_ (Int.to_int (size s 0))
                    (Int.to_int (size s 2)) (a (m_A s)) (Int.to_int (size s 0))
                    (repeat 0 (Z.to_nat (Int.to_int (size s 0)))) (a (m_b s))
                    (Int.to_int (size s 0)))) 0) as [Hinfo | Hinfo]; cbn.
        -- split; [| reflexivity]. intros _. repeat split; try assumption.
           eexists sgesv, _. split; [right; repeat split | exact Hinfo].
        -- split; [discriminate |].
           intros (_ & _ & f & r & [(Habs & _) | (_ & _ & ->)] & Hr);
             [discriminate Habs | contradiction].
      * split; [discriminate |].
        intros (_ & _ & f & r & [(Habs & _) | (Habs & _)] & _);
          discriminate Habs.
    + split; [discriminate |]. intros (_ & Habs & _). discriminate Habs.
Qed.

(** X25. When the native routine reports a status other than 0, [solve]
    throws the runtime error of that status after the call: A and b hold
    what the routine left in them, b is not cleared and x is as it was
    before the call. *)
Theorem solve_native_failure (s : LAPACK T) ipiv f r :
  idx_t.is_square_size (m_size (m_A s)) = true ->
  Std.vector_int (Int.to_int (size s 0)) = Returned ipiv ->
  selected typeid_T dgesv_ sgesv_ size s ipiv f r ->
  out_info r <> 0 ->
  exists s',
    solve typeid_T dgesv_ sgesv_ size cleared_size s
    = (Threw (std_runtime_error (what_of (out_info r))), s', [f]) /\
    a (m_A s') = out_a r /\
    a (m_b s') = out_b r /\
    m_x s' = m_x s /\
    what_of (out_info r) <> empty_message.
Proof.
  intros Hsq Hpiv Hsel Hinfo. exists (written s r).
  unfold solve.
  rewrite Hpiv, (dispatch_square T typeid_T dgesv_ sgesv_ size s ipiv f r Hsq Hsel).
  apply Z.eqb_neq in Hinfo as Hinfo'. rewrite Hinfo'.
  repeat split. apply what_of_nonzero, Hinfo.
Qed.

(** X26. [solve] calls at most one native routine, and only the one of
    the precision of [T]: [dgesv_] for [double], [sgesv_] for [float].
    When it calls none, it leaves the system as it was and does not
    return. *)
Theorem solve_calls_at_most_one (s : LAPACK T) :
  let result := solve typeid_T dgesv_ sgesv_ size cleared_size s in
  (snd result = [] /\ snd (fst result) = s /\
   fst (fst result) <> Returned ()) \/
  (snd result = [dgesv] /\ typeid_T = type_double) \/
  (snd result = [sgesv] /\ typeid_T = type_float).
Proof.
  cbv zeta. unfold solve.
  destruct (Std.vector_int (Int.to_int (size s 0))) as [ipiv | e |].
  - unfold dispatch.
    destruct (idx_t.is_square_size (m_size (m_A s))); cbn.
    + destruct typeid_T; cbn.
      * right. left. destruct (_ =? 0); split; reflexivity.
      * right. right. destruct (_ =? 0); split; reflexivity.
      * left. repeat split. discriminate.
    + left. repeat split. discriminate.
  - left. repeat split. discriminate.
  - left. repeat split. discriminate.
Qed.

(** X27. For a square matrix with a row count that is not negative as an
    [int] and a [T] that is neither [double] nor [float], [solve] throws
    the precision error, calls no native routine and leaves the system as
    it was. *)
Theorem solve_unsupported_precision (s : LAPACK T) :
  typeid_T = type_other ->
  idx_t.is_square_size (m_size (m_A s)) = true ->
  0 <= Int.to_int (size s 0) ->
  solve typeid_T dgesv_ sgesv_ size cleared_size s
  = (Threw (std_runtime_error precision_not_implemented), s, []).
Proof.
  intros Htype Hsq Hn. unfold solve.
  rewrite (vector_int_nonneg _ (to_int_range _) Hn).
  unfold dispatch. rewrite Hsq, Htype. reflexivity.
Qed.

(** X28. When the row count is negative as an [int], [solve] throws
    [std::length_error] from the construction of the pivot buffer, before
    it looks at the shape of the matrix or at [T]; it calls no native
    routine and leaves the system as it was. *)
Theorem solve_negative_count (s : LAPACK T) :
  Int.to_int (size s 0) < 0 ->
  solve typeid_T dgesv_ sgesv_ size cleared_size s
  = (Threw std_length_error, s, []).
Proof.
  intros Hn. unfold solve.
  rewrite (vector_int_negative _ (to_int_range _) Hn). reflexivity.
Qed.

End SolveCases.

Lemma solve_native_failure_witness :
  exists s',
    Sample.solve_sample type_double Cases.singular2
    = (Threw (std_runtime_error (singular 2)), s', [dgesv]) /\
    a (m_A s') = [2#1; 1#2; 4#1; 0#1]%Q /\
    a (m_b s') = [1#1; 1#1]%Q /\
    m_x s' = m_x Cases.singular2 /\
    singular 2 <> empty_message.
Proof.
  apply (solve_native_failure Q type_double Sample.gesv_2x2 Sample.gesv_2x2
           linearsystem_size idx_t.invalidate Cases.singular2 [0; 0] dgesv
           (Sample.gesv_2x2 2 1 (a (m_A Cases.singular2)) 2 [0; 0]
              (a (m_b Cases.singular2)) 2)).
  - reflexivity.
  - reflexivity.
  - left. repeat split.
  - vm_compute. discriminate.
Defined.

Lemma solve_unsupported_precision_witness :
  Sample.solve_sample type_other Sample.dense2
  = (Threw (std_runtime_error precision_not_implemented), Sample.dense2, []).
Proof.
  apply (solve_unsupported_precision Q type_other Sample.gesv_2x2
           Sample.gesv_2x2 linearsystem_size idx_t.invalidate Sample.dense2).
  - reflexivity.
  - reflexivity.
  - vm_compute. discriminate.
Defined.

(** A system whose matrix still has the default extent is square, and its
    row count is -1 as an [int]. *)
Lemma solve_negative_count_witness :
  idx_t.is_square_size (m_size (m_A Cases.unsized)) = true /\
  Sample.solve_sample type_double Cases.unsized
  = (Threw std_length_error, Cases.unsized, []).
Proof.
  split; [reflexivity |].
  apply (solve_negative_count Q type_double Sample.gesv_2x2 Sample.gesv_2x2
           linearsystem_size idx_t.invalidate Cases.unsized).
  reflexivity.
Defined.

(** ** Negative pivots *)

(** X29. A negative pivot is stored as the [size_t] it converts to,
    2^64 + e, which is above every [int]: [vector_element_push_back]
    appends that value, [vector_element_push_front] and the
    sorted-diagonal-first pipeline put it first, and
    [vector_element_remove] removes that value and leaves every index an
    [int] can name. *)
Theorem negative_pivot_wraps (v : list Z) (e : Z) :
  Int.is_int e -> e < 0 ->
  vector_element_push_back v e = v ++ [2 ^ 64 + e] /\
  vector_element_push_front v e = (2 ^ 64 + e) :: v /\
  hd_error (vector_sorted_diagonal_first_t v e) = Some (2 ^ 64 + e) /\
  Int.int_max < 2 ^ 64 + e /\
  (Forall Int.is_int v -> vector_element_remove v e = v).
Proof.
  intros He Hneg.
  unfold vector_element_push_back, vector_element_push_front.
  rewrite vector_sorted_diagonal_first_t_unfold. cbn [hd_error].
  pose proof (to_size_t_negative e He Hneg) as Hp. rewrite Hp.
  assert (Hbig : Int.int_max < 2 ^ 64 + e).
  { destruct He as [Hmin _]. revert Hmin. unfold Int.int_min, Int.int_max. lia. }
  repeat split; try exact Hbig.
  intros Hv. apply remove_absent. rewrite Hp. intros Hin.
  rewrite Forall_forall in Hv. destruct (Hv _ Hin) as [_ Hmax]. lia.
Qed.

Lemma negative_pivot_wraps_witness :
  vector_element_push_back [0; 4] (- 1) = [0; 4; 18446744073709551615].
Proof.
  assert (He : Int.is_int (- 1)).
  { unfold Int.is_int, Int.int_min, Int.int_max. lia. }
  destruct (negative_pivot_wraps [0; 4] (- 1) He ltac:(lia)) as (H & _).
  exact H.
Defined.
